(** * Buildora: project storage, file tree listing and export

    A shallow embedding of the storage service ([getProjects],
    [saveProjects], [saveProject], [deleteProject], [duplicateProject],
    [createProject]), of the file explorer ([renderTree] and the handlers
    of its forms), of the export routine ([exportProject], with its
    [processFolder] traversal and its single-file merge) and of the code
    editor's reading of a streamed answer, followed by the properties
    established about them. *)

From Stdlib Require Import List NArith ZArith Lia Bool String Ascii.
From Stdlib Require Import Permutation Sorted DecimalString.
Import ListNotations.

Set Implicit Arguments.

(* ================================================================== *)
(** * JavaScript strings *)
(* ================================================================== *)

(** A JavaScript string is a finite sequence of UTF-16 code units. *)
Definition jsstring := list N.

Module JS.

(** A literal of the source text; every literal of the program is ASCII. *)
Definition lit (s : string) : jsstring :=
  map N_of_ascii (list_ascii_of_string s).

(** [a === b] on strings. *)
Fixpoint eqb (a b : jsstring) : bool :=
  match a, b with
  | [], [] => true
  | x :: a', y :: b' => (x =? y)%N && eqb a' b'
  | _, _ => false
  end.

(** [matchAt same pat s]: when [pat] matches at the head of [s] (code units
    compared with [same]) the matched text and the text after it. *)
Fixpoint matchAt (same : N -> N -> bool) (pat s : jsstring)
  : option (jsstring * jsstring) :=
  match pat with
  | [] => Some ([], s)
  | p :: pat' =>
      match s with
      | [] => None
      | c :: s' =>
          if same p c then
            match matchAt same pat' s' with
            | Some (m, rest) => Some (c :: m, rest)
            | None => None
            end
          else None
      end
  end.

(** [search same pat s]: the leftmost match of [pat] in [s], as the text
    before it, the matched text and the text after it. *)
Fixpoint search (same : N -> N -> bool) (pat s : jsstring)
  : option (jsstring * jsstring * jsstring) :=
  match matchAt same pat s with
  | Some (m, rest) => Some ([], m, rest)
  | None =>
      match s with
      | [] => None
      | c :: s' =>
          match search same pat s' with
          | Some (pre, m, rest) => Some (c :: pre, m, rest)
          | None => None
          end
      end
  end.

(** [s.startsWith(pat)] *)
Definition startsWith (s pat : jsstring) : bool :=
  match matchAt N.eqb pat s with Some _ => true | None => false end.

(** [s.includes(pat)] *)
Definition includes (s pat : jsstring) : bool :=
  match search N.eqb pat s with Some _ => true | None => false end.

(** Canonicalisation of a code unit under the [i] flag of a regular
    expression without the [u] flag, as far as comparison with an ASCII
    pattern character goes: ASCII lower-case letters fold to upper case,
    and no code unit outside ASCII folds into ASCII. *)
Definition canon (c : N) : N :=
  if ((97 <=? c) && (c <=? 122))%N then (c - 32)%N else c.

Definition sameCI (a b : N) : bool := (canon a =? canon b)%N.

(** [GetSubstitution] for a match without capture groups: in the
    replacement text [$$] stands for a dollar sign, [$&] for the matched
    text, [$`] for the text before the match and [$'] for the text after
    it; a dollar sign followed by anything else stands for itself. *)
Fixpoint getSubstitution (matched before after template : jsstring)
  : jsstring :=
  match template with
  | [] => []
  | c :: t =>
      if (c =? 36)%N then
        match t with
        | d :: t' =>
            if (d =? 36)%N then 36%N :: getSubstitution matched before after t'
            else if (d =? 38)%N then
              matched ++ getSubstitution matched before after t'
            else if (d =? 96)%N then
              before ++ getSubstitution matched before after t'
            else if (d =? 39)%N then
              after ++ getSubstitution matched before after t'
            else c :: getSubstitution matched before after t
        | [] => [c]
        end
      else c :: getSubstitution matched before after t
  end.

(** [s.replace(pat, template)] for a pattern without capture groups and
    without the [g] flag: the leftmost match is replaced; [same] is
    [N.eqb] for a string pattern and [sameCI] for a literal regular
    expression with the [i] flag. *)
Definition replaceFirst (same : N -> N -> bool) (s pat template : jsstring)
  : jsstring :=
  match search same pat s with
  | Some (before, matched, after) =>
      before ++ getSubstitution matched before after template ++ after
  | None => s
  end.

(** [s.replace(pat, template)] with a string pattern. *)
Definition replace (s pat template : jsstring) : jsstring :=
  replaceFirst N.eqb s pat template.

(** [s.split(sep)] for a separator of one code unit. *)
Fixpoint split (sep : N) (s : jsstring) : list jsstring :=
  match s with
  | [] => [[]]
  | c :: s' =>
      if (c =? sep)%N then [] :: split sep s'
      else
        match split sep s' with
        | seg :: segs => (c :: seg) :: segs
        | [] => [[c]]
        end
  end.

(** White space and line terminators: the code units matched by [\s] in a
    regular expression and stripped by [trim]. *)
Definition isSpace (c : N) : bool :=
  ((9 <=? c) && (c <=? 13) || (c =? 32) || (c =? 160) || (c =? 5760)
   || (8192 <=? c) && (c <=? 8202) || (c =? 8232) || (c =? 8233)
   || (c =? 8239) || (c =? 8287) || (c =? 12288) || (c =? 65279))%N.

Fixpoint trimStart (s : jsstring) : jsstring :=
  match s with
  | [] => []
  | c :: s' => if isSpace c then trimStart s' else s
  end.

Fixpoint trimEnd (s : jsstring) : jsstring :=
  match s with
  | [] => []
  | c :: s' =>
      match trimEnd s' with
      | [] => if isSpace c then [] else [c]
      | t => c :: t
      end
  end.

(** [s.trim()] *)
Definition trim (s : jsstring) : jsstring := trimStart (trimEnd s).

(** [n.toString()] for a non-negative integer. *)
Definition decimal (n : N) : jsstring :=
  lit (NilZero.string_of_uint (N.to_uint n)).

(** [s.slice(k)] for [0 <= k]. *)
Definition slice (k : nat) (s : jsstring) : jsstring := skipn k s.

End JS.


Declare Scope js_scope.
Delimit Scope js_scope with js.
Notation "'#' s" := (JS.lit s) (at level 1, s at level 0, format "'#' s") : js_scope.
Open Scope js_scope.

(** The line feed written [\n] inside the template literals. *)
Definition nl : jsstring := [10%N].

(* ================================================================== *)
(** * Regular expressions used by the single-file merge *)
(* ================================================================== *)

Module Regex.

(** The fragment of regular expressions the program uses, all under the
    [i] flag: characters, classes, sequences, a greedy optional group, and
    greedy and lazy repetition of a class. *)
Inductive re : Type :=
| Eps
| Chr (c : N)
| Cls (p : N -> bool)
| Seq (a b : re)
| Opt (a : re)
| Star (p : N -> bool)
| LazyStar (p : N -> bool).

Fixpoint Lit (s : jsstring) : re :=
  match s with
  | [] => Eps
  | c :: s' => Seq (Chr c) (Lit s')
  end.

Definition Plus (p : N -> bool) : re := Seq (Cls p) (Star p).

Fixpoint Cat (rs : list re) : re :=
  match rs with
  | [] => Eps
  | r :: rs' => Seq r (Cat rs')
  end.

(** Backtracking matcher in continuation style: [run r s k] tries the ways
    [r] can match at the head of [s] in priority order and hands what is
    left to [k]; the result is the text after the whole match. *)
Fixpoint run (r : re) (s : jsstring) (k : jsstring -> option jsstring)
  : option jsstring :=
  match r with
  | Eps => k s
  | Chr c =>
      match s with
      | x :: s' => if JS.sameCI c x then k s' else None
      | [] => None
      end
  | Cls p =>
      match s with
      | x :: s' => if p x then k s' else None
      | [] => None
      end
  | Seq a b => run a s (fun s' => run b s' k)
  | Opt a =>
      match run a s k with
      | Some rest => Some rest
      | None => k s
      end
  | Star p =>
      (fix star (s : jsstring) : option jsstring :=
         match s with
         | x :: s' =>
             if p x then
               match star s' with
               | Some rest => Some rest
               | None => k s
               end
             else k s
         | [] => k s
         end) s
  | LazyStar p =>
      (fix lazy (s : jsstring) : option jsstring :=
         match k s with
         | Some rest => Some rest
         | None =>
             match s with
             | x :: s' => if p x then lazy s' else None
             | [] => None
             end
         end) s
  end.

(** [s.replace(r, '')] under the [g] flag: every match, found left to right
    and never overlapping, is removed; [skip] counts the code units of the
    current match still to drop. *)
Fixpoint removeFrom (r : re) (s : jsstring) (skip : nat) : jsstring :=
  match s with
  | [] => []
  | c :: s' =>
      match skip with
      | S n => removeFrom r s' n
      | O =>
          match run r s (fun rest => Some rest) with
          | Some rest =>
              match (List.length s - List.length rest)%nat with
              | S n => removeFrom r s' n
              | O => c :: removeFrom r s' 0
              end
          | None => c :: removeFrom r s' 0
          end
      end
  end.

Definition removeAll (r : re) (s : jsstring) : jsstring := removeFrom r s 0.

Definition notGt (c : N) : bool := negb (c =? 62)%N.
Definition quote (c : N) : bool := ((c =? 34) || (c =? 39))%N.
(** [.] matches every code unit but the line terminators. *)
Definition dot (c : N) : bool :=
  negb ((c =? 10) || (c =? 13) || (c =? 8232) || (c =? 8233))%N.

End Regex.

(* ================================================================== *)
(** * types.ts *)
(* ================================================================== *)

Inductive FileLanguage : Set :=
| html | css | javascript | json | xml | php | image | font.

Module File.
Record t : Type := mk {
  id : jsstring;
  name : jsstring;
  content : jsstring;       (* for images and fonts a Base64 data URL *)
  language : FileLanguage;
  parentId : jsstring;      (* 'root' or the id of a folder *)
  isDirectory : option bool; (* optional field: [None] is [undefined] *)
  isOpen : option bool
}.
End File.
Abbreviation File := File.t.

Inductive ProjectType : Set := type_html | type_php.

Module Project.
Record t : Type := mk {
  id : jsstring;
  name : jsstring;
  type : ProjectType;
  lastModified : N;
  files : list File;
  thumbnail : option jsstring
}.
End Project.
Abbreviation Project := Project.t.

(** Truthiness of an optional boolean field. *)
Definition truthy (b : option bool) : bool :=
  match b with Some true => true | _ => false end.

(** [a === b] on an optional boolean field. *)
Definition sameFlag (a b : option bool) : bool :=
  match a, b with
  | None, None => true
  | Some x, Some y => Bool.eqb x y
  | _, _ => false
  end.

(** [files.find(f => f.name === n)] *)
Definition findByName (n : jsstring) (files : list File) : option File :=
  find (fun f => JS.eqb (File.name f) n) files.

(** [files.filter(f => f.parentId === parentId)] *)
Definition childrenOf (files : list File) (parentId : jsstring) : list File :=
  filter (fun f => JS.eqb (File.parentId f) parentId) files.

(** Outcome of a body that may throw. *)
Inductive completion (E A : Type) : Type :=
| Normal (a : A)
| Throw (e : E).
Arguments Normal {E A} a.
Arguments Throw {E A} e.

(** An object used as an insertion-ordered map from string keys. *)
Module Dict.
Section Dict.
Variable V : Type.

Definition t := list (jsstring * V).

Fixpoint get (k : jsstring) (d : t) : option V :=
  match d with
  | [] => None
  | (k', v) :: d' => if JS.eqb k' k then Some v else get k d'
  end.

(** Assignment keeps the position of a key already present and appends a
    new key at the end. *)
Fixpoint set (k : jsstring) (v : V) (d : t) : t :=
  match d with
  | [] => [(k, v)]
  | (k', v') :: d' =>
      if JS.eqb k' k then (k, v) :: d' else (k', v') :: set k v d'
  end.

End Dict.
End Dict.

(* ================================================================== *)
(** * FileExplorer: the child listing of [renderTree] *)
(* ================================================================== *)

Module FileExplorer.
Section Listing.

(** [a.localeCompare(b)] of the host: negative, zero or positive. *)
Variable localeCompare : jsstring -> jsstring -> Z.

(** The comparison function handed to [items.sort]. *)
Definition compareItems (a b : File) : Z :=
  if sameFlag (File.isDirectory a) (File.isDirectory b)
  then localeCompare (File.name a) (File.name b)
  else if truthy (File.isDirectory a) then (-1)%Z else 1%Z.

(** [Array.prototype.sort] is a stable sort; for a consistent comparison
    function every stable sort returns the same array, computed here by
    insertion. An element goes before the first one it does not exceed.
    For a comparison function that is not consistent the order the engine
    returns is its own, and only the elements are those computed here. *)
Fixpoint insert (cmp : File -> File -> Z) (x : File) (l : list File)
  : list File :=
  match l with
  | [] => [x]
  | y :: l' => if (cmp x y <=? 0)%Z then x :: l else y :: insert cmp x l'
  end.

Fixpoint sort (cmp : File -> File -> Z) (l : list File) : list File :=
  match l with
  | [] => []
  | x :: l' => insert cmp x (sort cmp l')
  end.

(** The [items] that [renderTree(parentId)] maps to rows: the children of
    [parentId], sorted folders first. *)
Definition renderTree_items (files : list File) (parentId : jsstring)
  : list File :=
  sort compareItems (childrenOf files parentId).

End Listing.

(** ** The explorer's state and handlers *)

(** ['file' | 'folder'] *)
Inductive AddingType : Set := addingFile | addingFolder.

(** The pieces of component state the handlers below read and write. *)
Record State : Type := {
  newItemName : jsstring;
  addingType : option AddingType;
  activeFolderId : jsstring;
  editingId : option jsstring;
  editName : jsstring;
  expandedFolders : Dict.t bool
}.

(** A call of one of the callbacks received as props. *)
Inductive Call : Type :=
| onAddFile (name content parentId : jsstring) (isDir : bool)
| onRenameFile (id name : jsstring).

(** Truthiness of a string that may be null. *)
Definition truthyString (s : option jsstring) : bool :=
  match s with
  | Some (_ :: _) => true
  | _ => false
  end.

Definition nonEmpty (s : jsstring) : bool :=
  match s with
  | [] => false
  | _ :: _ => true
  end.

(** [setExpandedFolders(prev => ({...prev, [folderId]: !prev[folderId]}))] *)
Definition toggleFolder (folderId : jsstring) (st : State) : State :=
  {| newItemName := newItemName st;
     addingType := addingType st;
     activeFolderId := activeFolderId st;
     editingId := editingId st;
     editName := editName st;
     expandedFolders :=
       Dict.set folderId
         (negb (truthy (Dict.get folderId (expandedFolders st))))
         (expandedFolders st) |}.

(** [handleCreateSubmit]: the callback called, if any, and the state
    after. *)
Definition handleCreateSubmit (st : State) : option Call * State :=
  match addingType st with
  | Some kind =>
      if nonEmpty (JS.trim (newItemName st)) then
        (Some (onAddFile (JS.trim (newItemName st)) [] (activeFolderId st)
                 match kind with
                 | addingFolder => true
                 | addingFile => false
                 end),
         {| newItemName := [];
            addingType := None;
            activeFolderId := activeFolderId st;
            editingId := editingId st;
            editName := editName st;
            expandedFolders :=
              Dict.set (activeFolderId st) true (expandedFolders st) |})
      else (None, st)
  | None => (None, st)
  end.

(** [startRename] *)
Definition startRename (file : File) (st : State) : State :=
  {| newItemName := newItemName st;
     addingType := addingType st;
     activeFolderId := activeFolderId st;
     editingId := Some (File.id file);
     editName := File.name file;
     expandedFolders := expandedFolders st |}.

(** [submitRename] *)
Definition submitRename (st : State) : option Call * State :=
  match editingId st with
  | Some id =>
      if truthyString (editingId st) && nonEmpty (JS.trim (editName st)) then
        (Some (onRenameFile id (JS.trim (editName st))),
         {| newItemName := newItemName st;
            addingType := addingType st;
            activeFolderId := activeFolderId st;
            editingId := None;
            editName := editName st;
            expandedFolders := expandedFolders st |})
      else (None, st)
  | None => (None, st)
  end.

(** ** [renderTree] *)

(** A rendered line of the tree: the item, its depth, and whether the
    rename form stands in its place. *)
Record Row : Type := {
  rowFile : File;
  rowDepth : nat;
  rowRenaming : bool
}.

Fixpoint collect (A : Type) (parts : list (option (list A)))
  : option (list A) :=
  match parts with
  | [] => Some []
  | None :: _ => None
  | Some rows :: parts' =>
      match collect parts' with
      | Some rest => Some (rows ++ rest)
      | None => None
      end
  end.

Section Tree.

Variable localeCompare : jsstring -> jsstring -> Z.

(** What [items.map] returns for one item: its row, followed by the rows
    of its children when it is a folder shown expanded. *)
Definition renderItem (recurse : jsstring -> nat -> option (list Row))
    (st : State) (depth : nat) (file : File) : option (list Row) :=
  let row :=
    {| rowFile := file;
       rowDepth := depth;
       rowRenaming :=
         match editingId st with
         | Some id => JS.eqb id (File.id file)
         | None => false
         end |} in
  if truthy (File.isDirectory file)
     && truthy (Dict.get (File.id file) (expandedFolders st))
  then
    match recurse (File.id file) (S depth) with
    | Some rows => Some (row :: rows)
    | None => None
    end
  else Some [row].

(** [renderTree(parentId, depth)], as the rows it renders from top to
    bottom; the recursion is bounded by [fuel], and [None] means the bound
    was reached. *)
Fixpoint renderTree (fuel : nat) (files : list File) (st : State)
    (parentId : jsstring) (depth : nat) : option (list Row) :=
  match fuel with
  | O => None
  | S fuel' =>
      let items := renderTree_items localeCompare files parentId in
      collect (map (renderItem (renderTree fuel' files st) st depth) items)
  end.

End Tree.
End FileExplorer.

(* ================================================================== *)
(** * The archive under construction *)
(* ================================================================== *)

Module JSZip.

(** What [file(name, data, options)] was given: text, or Base64 text with
    the option [base64: true]. *)
Inductive data : Type :=
| Text (s : jsstring)
| Base64 (s : jsstring).

Inductive object : Type :=
| Dir
| Entry (d : data).

(** [zip.files]: the entries by full path. Folder handles share it and
    differ by their [root] prefix only. *)
Definition files := Dict.t object.

Definition forceTrailingSlash (path : jsstring) : jsstring :=
  match rev path with
  | 47%N :: _ => path
  | _ => path ++ #"/"
  end.

(** [folder(arg)] on the handle with prefix [root]: the new handle's prefix
    and the entries. An empty [arg] gives the handle back; the call never
    returns null. Intermediate folders implied by a slash inside a name
    are not materialised here. *)
Definition folder (root arg : jsstring) (z : files)
  : option (jsstring * files) :=
  match arg with
  | [] => Some (root, z)
  | _ =>
      let path := forceTrailingSlash (root ++ arg) in
      match Dict.get path z with
      | Some _ => Some (path, z)
      | None => Some (path, Dict.set path Dir z)
      end
  end.

(** [file(name, data)] on the handle with prefix [root]. *)
Definition file (root name : jsstring) (d : data) (z : files) : files :=
  Dict.set (root ++ name) (Entry d) z.

(** The archive library's Base64 decoder and UTF-8 encoder. The decoder
    throws on a text it does not accept (a content length that is no
    Base64 length, a text that looks like a data URL): [None]. *)
Record Codec : Type := {
  base64_decode : jsstring -> option (list N);
  utf8_encode : jsstring -> list N
}.

(** The bytes of an entry, when its data can be decoded. *)
Definition bytes (c : Codec) (d : data) : option (list N) :=
  match d with
  | Text s => Some (utf8_encode c s)
  | Base64 s => base64_decode c s
  end.

(** A member of the generated archive: a folder, or a file with its
    bytes (before compression). *)
Inductive member : Type :=
| MemberDir
| MemberFile (content : list N).

(** [generateAsync]: the entries are turned into the members of the
    archive, in order; the promise is rejected, [None], when the data of
    an entry cannot be decoded. *)
Fixpoint generateAsync (c : Codec) (z : files) : option (Dict.t member) :=
  match z with
  | [] => Some []
  | (path, Dir) :: z' =>
      match generateAsync c z' with
      | Some rest => Some ((path, MemberDir) :: rest)
      | None => None
      end
  | (path, Entry d) :: z' =>
      match bytes c d with
      | Some content =>
          match generateAsync c z' with
          | Some rest => Some ((path, MemberFile content) :: rest)
          | None => None
          end
      | None => None
      end
  end.

End JSZip.

(* ================================================================== *)
(** * ApkBuilder: [exportProject] *)
(* ================================================================== *)

Module ApkBuilder.

(** The errors thrown inside [exportProject]; its [catch] turns each into
    the message shown to the user. *)
Inductive ExportError : Set :=
| NoProjectDetected          (* "No project detected" *)
| CouldNotCreateRootFolder   (* "Could not create root folder" *)
| MissingEntryPoint          (* "Project must contain 'index.html' ..." *)
| ArchiveGenerationFailed.   (* the rejection of [generateAsync] *)

(** The class [[a-zA-Z0-9-_\s]]. *)
Definition allowedChar (c : N) : bool :=
  ((97 <=? c) && (c <=? 122) || (65 <=? c) && (c <=? 90)
   || (48 <=? c) && (c <=? 57) || (c =? 45) || (c =? 95))%N
  || JS.isSpace c.

(** [name.replace(/[^a-zA-Z0-9-_\s]/g, '').trim() || "Project"] *)
Definition safeProjectName (name : jsstring) : jsstring :=
  match JS.trim (filter allowedChar name) with
  | [] => #"Project"
  | t => t
  end.

(** ** Single-file merge *)

Definition cssBlock (cssContent : jsstring) : jsstring :=
  #"<style>" ++ nl ++ #"/* Injected from style.css */" ++ nl
  ++ cssContent ++ nl ++ #"</style>".

(** The injection of the style block into the working document. *)
Definition injectCss (finalHtml cssContent : jsstring) : jsstring :=
  let cssBlock := cssBlock cssContent in
  if JS.includes finalHtml #"</head>" then
    JS.replace finalHtml #"</head>" (cssBlock ++ nl ++ #"</head>")
  else if JS.includes finalHtml #"<body" then
    JS.replaceFirst JS.sameCI finalHtml #"<body" (cssBlock ++ nl ++ #"<body")
  else cssBlock ++ nl ++ finalHtml.

(** [/<link\s+[^>]*href=["'](.*?\/)?style\.css["'][^>]*>/gi] *)
Definition linkTagRegex : Regex.re :=
  Regex.Cat
    [Regex.Lit #"<link"; Regex.Plus JS.isSpace; Regex.Star Regex.notGt;
     Regex.Lit #"href="; Regex.Cls Regex.quote;
     Regex.Opt (Regex.Seq (Regex.LazyStar Regex.dot) (Regex.Chr 47));
     Regex.Lit #"style.css"; Regex.Cls Regex.quote;
     Regex.Star Regex.notGt; Regex.Chr 62].

Definition mergeCss (files : list File) (finalHtml : jsstring) : jsstring :=
  match findByName #"style.css" files with
  | Some cssFile =>
      Regex.removeAll linkTagRegex (injectCss finalHtml (File.content cssFile))
  | None => finalHtml
  end.

(** [find(script.js) || find(main.js)] *)
Definition findJsFile (files : list File) : option File :=
  match findByName #"script.js" files with
  | Some f => Some f
  | None => findByName #"main.js" files
  end.

Definition jsBlock (jsFile : File) : jsstring :=
  #"<script>" ++ nl ++ #"/* Injected from " ++ File.name jsFile ++ #" */"
  ++ nl ++ File.content jsFile ++ nl ++ #"</script>".

(** The injection of the script block into the working document. *)
Definition injectJs (finalHtml : jsstring) (jsFile : File) : jsstring :=
  let jsBlock := jsBlock jsFile in
  if JS.includes finalHtml #"</body>" then
    JS.replace finalHtml #"</body>" (jsBlock ++ nl ++ #"</body>")
  else finalHtml ++ nl ++ jsBlock.

(** The regular expression built from the chosen file's name, which is
    [script.js] or [main.js]; escaping its dot makes the name match
    literally:
    [<script\s+[^>]*src=["'](.*?\/)?NAME["'][^>]*>\s*<\/script>], flags
    [gi]. *)
Definition scriptTagRegex (name : jsstring) : Regex.re :=
  Regex.Cat
    [Regex.Lit #"<script"; Regex.Plus JS.isSpace; Regex.Star Regex.notGt;
     Regex.Lit #"src="; Regex.Cls Regex.quote;
     Regex.Opt (Regex.Seq (Regex.LazyStar Regex.dot) (Regex.Chr 47));
     Regex.Lit name; Regex.Cls Regex.quote;
     Regex.Star Regex.notGt; Regex.Chr 62;
     Regex.Star JS.isSpace; Regex.Lit #"</script>"].

Definition mergeJs (files : list File) (finalHtml : jsstring) : jsstring :=
  match findJsFile files with
  | Some jsFile =>
      Regex.removeAll (scriptTagRegex (File.name jsFile))
        (injectJs finalHtml jsFile)
  | None => finalHtml
  end.

(** ** Standard recursive mode *)

Definition isBinary (item : File) : bool :=
  match File.language item with
  | image | font => true
  | _ => false
  end.

(** The branch of [processFolder] for an item that is not a directory. *)
Definition processLeaf (item : File) (currentZipFolder : jsstring)
    (z : JSZip.files) : JSZip.files :=
  let content := File.content item in
  if isBinary item && JS.startsWith content #"data:" then
    let parts := JS.split 44 content in
    if (1 <? List.length parts)%nat then
      let base64Data := nth 1 parts [] in
      JSZip.file currentZipFolder (File.name item) (JSZip.Base64 base64Data) z
    else z
  else JSZip.file currentZipFolder (File.name item) (JSZip.Text content) z.

(** The body of [items.forEach] in [processFolder]; [recurse] is the
    nested call, and [None] a traversal cut short. *)
Definition processItem
    (recurse : jsstring -> jsstring -> JSZip.files -> option JSZip.files)
    (currentZipFolder : jsstring) (acc : option JSZip.files) (item : File)
  : option JSZip.files :=
  match acc with
  | None => None
  | Some z =>
      if truthy (File.isDirectory item) then
        match JSZip.folder currentZipFolder (File.name item) z with
        | Some (newZipFolder, z') => recurse (File.id item) newZipFolder z'
        | None => Some z
        end
      else Some (processLeaf item currentZipFolder z)
  end.

(** [processFolder(parentId, currentZipFolder)]. The recursion follows the
    ids of the tree, so it is bounded by [fuel]; [None] means the bound was
    reached. *)
Fixpoint processFolder (fuel : nat) (files : list File)
    (parentId currentZipFolder : jsstring) (z : JSZip.files)
  : option JSZip.files :=
  match fuel with
  | O => None
  | S fuel' =>
      let items := childrenOf files parentId in
      fold_left (processItem (processFolder fuel' files) currentZipFolder)
        items (Some z)
  end.

(** What the user receives: the name the archive is saved under, the
    entries put into the archive object, and the members of the archive
    generated from them. *)
Record Download : Type := {
  download : jsstring;
  zip : JSZip.files;
  blob : Dict.t JSZip.member
}.

(** [exportProject], with the [project] prop and the [isSingleFile] state
    as arguments, and the codec of the archive library. The archive is
    generated once the entries are in place; a rejection is caught like
    the errors thrown before, and nothing is downloaded then. [Throw e]
    stands for the run of the [catch] branch on [e]; [None] for a
    traversal that reached the bound [fuel]. *)
Definition exportProject (codec : JSZip.Codec) (fuel : nat)
    (project : option Project) (isSingleFile : bool)
  : option (completion ExportError Download) :=
  match project with
  | None => Some (Throw NoProjectDetected)
  | Some project =>
      let safeProjectName := safeProjectName (Project.name project) in
      match JSZip.folder [] safeProjectName [] with
      | None => Some (Throw CouldNotCreateRootFolder)
      | Some (rootFolder, z) =>
          let finish z :=
            match JSZip.generateAsync codec z with
            | Some members =>
                Normal {| download := safeProjectName ++ #".zip";
                          zip := z;
                          blob := members |}
            | None => Throw ArchiveGenerationFailed
            end in
          if isSingleFile then
            match findByName #"index.html" (Project.files project) with
            | None => Some (Throw MissingEntryPoint)
            | Some indexFile =>
                let finalHtml :=
                  mergeJs (Project.files project)
                    (mergeCss (Project.files project)
                       (File.content indexFile)) in
                Some (finish
                        (JSZip.file rootFolder #"index.html"
                           (JSZip.Text finalHtml) z))
            end
          else
            match
              processFolder fuel (Project.files project) #"root" rootFolder z
            with
            | Some z' => Some (finish z')
            | None => None
            end
      end
  end.

End ApkBuilder.

(* ================================================================== *)
(** * CodeEditor: reading the streamed answer *)
(* ================================================================== *)

Module CodeEditor.

(** A letter of [[a-z]] under the [i] flag. *)
Definition isLetter (c : N) : bool :=
  ((97 <=? c) && (c <=? 122) || (65 <=? c) && (c <=? 90))%N.

Fixpoint dropLetters (s : jsstring) : jsstring :=
  match s with
  | [] => []
  | c :: s' => if isLetter c then dropLetters s' else s
  end.

(** [s.replace(/^```[a-z]*\n/i, '')]: an opening fence at the very start,
    with its language tag and line feed, is removed. *)
Definition stripOpeningFence (s : jsstring) : jsstring :=
  match JS.matchAt N.eqb #"```" s with
  | Some (_, rest) =>
      match dropLetters rest with
      | 10%N :: code => code
      | _ => s
      end
  | None => s
  end.

(** [s.endsWith(suffix)] *)
Definition endsWith (s suffix : jsstring) : bool :=
  JS.startsWith (rev s) (rev suffix).

(** [s.replace(/\n```$/, '')]: a closing fence at the very end, with the
    line feed before it, is removed. *)
Definition stripClosingFence (s : jsstring) : jsstring :=
  if endsWith s (nl ++ #"```") then firstn (List.length s - 4) s else s.

(** [newCode]: the answer without its fences, trimmed. *)
Definition newCode (fullContent : jsstring) : jsstring :=
  JS.trim (stripClosingFence (stripOpeningFence fullContent)).

Section Stream.

(** What one [data: ] payload adds to the answer:
    [JSON.parse(payload).choices?.[0]?.delta?.content], as appended to a
    string; empty when the payload does not parse or holds no content. *)
Variable deltaOf : jsstring -> jsstring.

(** The body of the loop over the complete lines of the buffer. *)
Definition processLine (fullContent line : jsstring) : jsstring :=
  let trimmed := JS.trim line in
  match trimmed with
  | [] => fullContent
  | _ =>
      if JS.eqb trimmed #"data: [DONE]" then fullContent
      else if JS.startsWith trimmed #"data: "
      then fullContent ++ deltaOf (JS.slice 6 trimmed)
      else fullContent
  end.

(** One turn of the reading loop on a decoded chunk: the state is
    [fullContent] and [buffer]. *)
Definition readChunk (state : jsstring * jsstring) (chunk : jsstring)
  : jsstring * jsstring :=
  let (fullContent, buffer) := state in
  let lines := JS.split 10 (buffer ++ chunk) in
  (fold_left processLine (removelast lines) fullContent, last lines []).

(** [fullContent] once the stream is done. *)
Definition readStream (chunks : list jsstring) : jsstring :=
  fst (fold_left readChunk chunks ([], [])).

End Stream.
End CodeEditor.

(* ================================================================== *)
(** * storage service *)
(* ================================================================== *)

Module Storage.

Definition STORAGE_KEY : jsstring := #"buildora_projects".

Inductive JSError : Set := SyntaxError.

(** The host: [JSON.parse] and [JSON.stringify] at the type [Project[]]
    the service declares, the successive results of [Date.now()], and the
    successive results of [Math.random().toString()]. *)
Record Host : Type := {
  JSON_parse : jsstring -> completion JSError (list Project);
  JSON_stringify : list Project -> jsstring;
  now_at : nat -> N;
  random_at : nat -> jsstring
}.

(** The state the service reads and writes: [localStorage] and how many
    times the clock and the random generator were asked. *)
Record World : Type := {
  localStorage : Dict.t jsstring;
  ticks : nat;
  draws : nat
}.

Definition Date_now (h : Host) (w : World) : N * World :=
  (now_at h (ticks w),
   {| localStorage := localStorage w; ticks := S (ticks w);
      draws := draws w |}).

Definition Math_random (h : Host) (w : World) : jsstring * World :=
  (random_at h (draws w),
   {| localStorage := localStorage w; ticks := ticks w;
      draws := S (draws w) |}).

Definition try_catch {E A : Type} (body : completion E A)
    (handler : E -> completion E A) : completion E A :=
  match body with
  | Normal a => Normal a
  | Throw e => handler e
  end.

Definition getProjects (h : Host) (w : World)
  : completion JSError (list Project) :=
  let data := Dict.get STORAGE_KEY (localStorage w) in
  try_catch
    match data with
    | Some (c :: d) => JSON_parse h (c :: d)
    | _ => Normal []
    end
    (fun e => Normal []).

Definition saveProjects (h : Host) (projects : list Project) (w : World)
  : World :=
  {| localStorage :=
       Dict.set STORAGE_KEY (JSON_stringify h projects) (localStorage w);
     ticks := ticks w; draws := draws w |}.

(** [files.map(f => ({...f, id: Date.now().toString()
                              + Math.random().toString().slice(2)}))] *)
Fixpoint regenerateIds (h : Host) (files : list File) (w : World)
  : list File * World :=
  match files with
  | [] => ([], w)
  | f :: files' =>
      let (t, w1) := Date_now h w in
      let (r, w2) := Math_random h w1 in
      let f' :=
        {| File.id := JS.decimal t ++ JS.slice 2 r;
           File.name := File.name f;
           File.content := File.content f;
           File.language := File.language f;
           File.parentId := File.parentId f;
           File.isDirectory := File.isDirectory f;
           File.isOpen := File.isOpen f |} in
      let (rest, w3) := regenerateIds h files' w2 in
      (f' :: rest, w3)
  end.

(** [duplicateProject(id)]; the JSON round trip that makes the deep copy
    is the identity on the immutable records here. *)
Definition duplicateProject (h : Host) (id : jsstring) (w : World)
  : completion JSError (option Project) * World :=
  match getProjects h w with
  | Throw e => (Throw e, w)
  | Normal projects =>
      match find (fun p => JS.eqb (Project.id p) id) projects with
      | None => (Normal None, w)
      | Some original =>
          let (t1, w1) := Date_now h w in
          let (t2, w2) := Date_now h w1 in
          let (files', w3) := regenerateIds h (Project.files original) w2 in
          let newProject :=
            {| Project.id := JS.decimal t1;
               Project.name := Project.name original ++ #" Copy";
               Project.type := Project.type original;
               Project.lastModified := t2;
               Project.files := files';
               Project.thumbnail := Project.thumbnail original |} in
          (Normal (Some newProject),
           saveProjects h (newProject :: projects) w3)
      end
  end.

(** [projects.findIndex(p)]; [None] is the result [-1]. *)
Fixpoint findIndex (A : Type) (p : A -> bool) (l : list A) : option nat :=
  match l with
  | [] => None
  | x :: l' =>
      if p x then Some 0
      else match findIndex p l' with
           | Some i => Some (S i)
           | None => None
           end
  end.

(** [l[i] = x] for an index inside the array. *)
Fixpoint assign (A : Type) (i : nat) (x : A) (l : list A) : list A :=
  match l, i with
  | [], _ => []
  | _ :: l', O => x :: l'
  | y :: l', S i' => y :: assign i' x l'
  end.

Definition saveProject (h : Host) (project : Project) (w : World)
  : completion JSError unit * World :=
  match getProjects h w with
  | Throw e => (Throw e, w)
  | Normal projects =>
      let index :=
        findIndex (fun p => JS.eqb (Project.id p) (Project.id project))
          projects in
      let projects' :=
        match index with
        | Some index => assign index project projects
        | None => projects ++ [project]
        end in
      (Normal tt, saveProjects h projects' w)
  end.

Definition deleteProject (h : Host) (id : jsstring) (w : World)
  : completion JSError unit * World :=
  match getProjects h w with
  | Throw e => (Throw e, w)
  | Normal all =>
      let projects :=
        filter (fun p => negb (JS.eqb (Project.id p) id)) all in
      (Normal tt, saveProjects h projects w)
  end.

(** ** [createProject] *)

(** The double quote inside the template literals. *)
Definition dq : jsstring := [34%N].

(** The lines of a template literal, joined by line feeds. *)
Fixpoint unlines (ls : list jsstring) : jsstring :=
  match ls with
  | [] => []
  | [l] => l
  | l :: ls' => l ++ nl ++ unlines ls'
  end.

Definition indexHtmlContent (name : jsstring) : jsstring :=
  unlines
    [ #"<!DOCTYPE html>";
      #"<html lang=" ++ dq ++ #"en" ++ dq ++ #">";
      #"<head>";
      #"    <meta charset=" ++ dq ++ #"UTF-8" ++ dq ++ #">";
      #"    <meta name=" ++ dq ++ #"viewport" ++ dq ++ #" content=" ++ dq ++ #"width=device-width, initial-scale=1.0" ++ dq ++ #">";
      #"    <title>" ++ name ++ #"</title>";
      #"    <link rel=" ++ dq ++ #"stylesheet" ++ dq ++ #" href=" ++ dq ++ #"style.css" ++ dq ++ #">";
      #"</head>";
      #"<body>";
      #"    <div class=" ++ dq ++ #"container" ++ dq ++ #">";
      #"        <h1>Welcome to " ++ name ++ #"</h1>";
      #"        <p>Start editing this file!</p>";
      #"        <button id=" ++ dq ++ #"clickMe" ++ dq ++ #">Click Me</button>";
      #"    </div>";
      #"    <script src=" ++ dq ++ #"script.js" ++ dq ++ #"></script>";
      #"</body>";
      #"</html>" ].

Definition indexPhpContent (name : jsstring) : jsstring :=
  unlines
    [ #"<?php";
      #"  // Basic PHP Local Server Simulation";
      #"  $title = " ++ dq ++ name ++ dq ++ #";";
      #"  echo " ++ dq ++ #"<h1>Welcome to " ++ dq ++ #" . $title . " ++ dq ++ #"</h1>" ++ dq ++ #";";
      #"  echo " ++ dq ++ #"<p>PHP Server is simulated in this environment.</p>" ++ dq ++ #";";
      #"?>" ].

Definition styleContent : jsstring :=
  unlines
    [ #"body {";
      #"    font-family: system-ui, -apple-system, sans-serif;";
      #"    padding: 2rem;";
      #"    background-color: #f0f9ff;";
      #"    color: #333;";
      #"}";
      #".container {";
      #"    background: white;";
      #"    padding: 2rem;";
      #"    border-radius: 12px;";
      #"    box-shadow: 0 4px 6px -1px rgb(0 0 0 / 0.1);";
      #"    text-align: center;";
      #"}";
      #"button {";
      #"    background: #2563eb;";
      #"    color: white;";
      #"    border: none;";
      #"    padding: 0.75rem 1.5rem;";
      #"    border-radius: 6px;";
      #"    font-size: 1rem;";
      #"    cursor: pointer;";
      #"    margin-top: 1rem;";
      #"}";
      #"button:hover {";
      #"    background: #1d4ed8;";
      #"}" ].

Definition jsContent : jsstring :=
  unlines
    [ #"document.getElementById('clickMe').addEventListener('click', () => {";
      #"    alert('Hello from Buildora!');";
      #"});" ].

(** [createProject(name, type)]: the clock is read for the id and again
    for [lastModified]; nothing is stored. *)
Definition createProject (h : Host) (name : jsstring) (type : ProjectType)
    (w : World) : Project * World :=
  let indexContent :=
    match type with
    | type_html => indexHtmlContent name
    | type_php => indexPhpContent name
    end in
  let files :=
    [ {| File.id := #"1";
         File.name :=
           match type with
           | type_html => #"index.html"
           | type_php => #"index.php"
           end;
         File.content := indexContent;
         File.language :=
           match type with type_html => html | type_php => php end;
         File.parentId := #"root";
         File.isDirectory := None;
         File.isOpen := None |};
      {| File.id := #"2";
         File.name := #"style.css";
         File.content := styleContent;
         File.language := css;
         File.parentId := #"root";
         File.isDirectory := None;
         File.isOpen := None |};
      {| File.id := #"3";
         File.name := #"script.js";
         File.content := jsContent;
         File.language := javascript;
         File.parentId := #"root";
         File.isDirectory := None;
         File.isOpen := None |} ] in
  let (t1, w1) := Date_now h w in
  let (t2, w2) := Date_now h w1 in
  ({| Project.id := JS.decimal t1;
      Project.name := name;
      Project.type := type;
      Project.lastModified := t2;
      Project.files := files;
      Project.thumbnail := None |}, w2).

End Storage.

(* ================================================================== *)
(** * Notions used in the statements *)
(* ================================================================== *)

(** [before] ends where the leftmost occurrence of [pat] in [s] starts: no
    occurrence of [pat] in [s] starts earlier. *)
Definition firstAt (pat before s : jsstring) : Prop :=
  forall a b, s = a ++ pat ++ b -> List.length before <= List.length a.

(** Folders first, then by name: [a] may stand before [b]. *)
Definition foldersFirst (compare : jsstring -> jsstring -> Z) (a b : File)
  : Prop :=
  (truthy (File.isDirectory a) = true /\ truthy (File.isDirectory b) = false)
  \/ (truthy (File.isDirectory a) = truthy (File.isDirectory b)
      /\ (compare (File.name a) (File.name b) <= 0)%Z).

(** The optional flag is recorded in one way: two items that are both
    folders, or both not, carry the same value of [isDirectory]. *)
Definition uniformFlags (items : list File) : Prop :=
  forall f g, In f items -> In g items ->
    truthy (File.isDirectory f) = truthy (File.isDirectory g) ->
    File.isDirectory f = File.isDirectory g.

(** Comparison of two strings code unit by code unit (case-sensitive,
    ordinal). *)
Fixpoint ordinalCompare (a b : jsstring) : Z :=
  match a, b with
  | [], [] => 0
  | [], _ :: _ => -1
  | _ :: _, [] => 1
  | x :: a', y :: b' =>
      match (x ?= y)%N with
      | Lt => -1
      | Gt => 1
      | Eq => ordinalCompare a' b'
      end
  end%Z.


(** The folders of [files] form a well-founded tree: every folder lies
    strictly below the folder it is in, as measured by [rank]. *)
Definition ranked (files : list File) (rank : jsstring -> nat) : Prop :=
  forall f, In f files -> truthy (File.isDirectory f) = true ->
    rank (File.id f) < rank (File.parentId f).

(** The host's JSON functions give back the list [ps] when it is written
    and read again: [JSON.parse(JSON.stringify(ps))] is [ps], and the text
    is not empty. *)
Definition roundTrips (h : Storage.Host) (ps : list Project) : Prop :=
  Storage.JSON_parse h (Storage.JSON_stringify h ps) = Normal ps /\
  Storage.JSON_stringify h ps <> [].

(** [p => p.id === id] *)
Definition byId (id : jsstring) (p : Project) : bool :=
  JS.eqb (Project.id p) id.

(** What [saveProject] does to the array: the first element that matches
    is replaced, and without a match the new element goes to the end. *)
Definition placed (A : Type) (f : A -> bool) (x : A) (l : list A)
  : list A :=
  match Storage.findIndex f l with
  | Some i => Storage.assign i x l
  | None => l ++ [x]
  end.

(** [f'] is [f] under another id. *)
Definition sameButId (f' f : File) : Prop :=
  File.name f' = File.name f /\ File.content f' = File.content f /\
  File.language f' = File.language f /\ File.parentId f' = File.parentId f /\
  File.isDirectory f' = File.isDirectory f /\ File.isOpen f' = File.isOpen f.

(** A file at the top level that the standard export writes as text. *)
Definition plainRootLeaf (f : File) : Prop :=
  File.parentId f = #"root" /\ truthy (File.isDirectory f) = false /\
  ApkBuilder.isBinary f && JS.startsWith (File.content f) #"data:" = false.

(** [f => f.name === n] *)
Definition byName (n : jsstring) (f : File) : bool :=
  JS.eqb (File.name f) n.

(** Every path of the archive lies under [top]. *)
Definition allUnder (top : jsstring) (z : JSZip.files) : Prop :=
  forall k v, In (k, v) z -> exists rest, k = top ++ rest.

(* ================================================================== *)
(** * Sample data *)
(* ================================================================== *)

Definition demoFile (id name content : jsstring) (language : FileLanguage)
    (parentId : jsstring) (isDirectory : option bool) : File :=
  File.mk id name content language parentId isDirectory None.

Definition demoPages : File :=
  demoFile #"10" #"pages" [] html #"root" (Some true).

Definition demoIndexHtml : jsstring :=
  #"<html><head><link rel='stylesheet' href='style.css'></head><body><script src='script.js'></script></body></html>".

Definition demoIndex : File :=
  demoFile #"11" #"index.html" demoIndexHtml html #"10" None.

(** A small site: the entry page inside a folder, a style sheet and a
    script at the top. *)
Definition demoSite : Project :=
  Project.mk #"1700000000000" #"My Site!" type_html 1700000000000
    [ demoPages; demoIndex;
      demoFile #"12" #"style.css" #"body{color:red}" css #"root" None;
      demoFile #"13" #"script.js" #"console.log(1)" javascript #"root" None ]
    None.

(** A host for the samples: its clock advances by one millisecond per call,
    its random numbers are read off a fixed sequence, and its store holds
    under the text below the serialisation of [[demoSite]]. *)
Definition demoSerialized : jsstring := #"[demoSite]".

Definition demoHost : Storage.Host :=
  {| Storage.JSON_parse := fun s =>
       if JS.eqb s demoSerialized then Normal [demoSite]
       else Throw Storage.SyntaxError;
     Storage.JSON_stringify := fun _ => #"[demoSite copy, demoSite]";
     Storage.now_at := fun k => (1700000000000 + N.of_nat k)%N;
     Storage.random_at := fun k =>
       #"0." ++ JS.decimal (4159265358979 + 7919 * N.of_nat k) |}.

Definition demoWorld : Storage.World :=
  {| Storage.localStorage := [(Storage.STORAGE_KEY, demoSerialized)];
     Storage.ticks := 0; Storage.draws := 0 |}.

(** A price list whose style sheet and script mention the dollar sign. *)
Definition priceCss : jsstring := #".price::before{content:'$$'}".
Definition priceJs : jsstring := #"total.textContent = '$' + sum;".

Definition priceStyled : Project :=
  Project.mk #"1700000000100" #"Price list" type_html 1700000000100
    [ demoFile #"1" #"index.html" #"<html><head></head><body></body></html>"
        html #"root" None;
      demoFile #"2" #"style.css" priceCss css #"root" None ]
    None.

Definition priceScripted : Project :=
  Project.mk #"1700000000200" #"Price list" type_html 1700000000200
    [ demoFile #"1" #"index.html" #"<html><body></body></html>"
        html #"root" None;
      demoFile #"3" #"script.js" priceJs javascript #"root" None;
      demoFile #"4" #"main.js" #"boot();" javascript #"root" None ]
    None.

(** A project whose top level was filled in the order [b.txt], [assets],
    [a.txt], with an image inside [assets]. *)
Definition bTxt : File := demoFile #"21" #"b.txt" #"B" html #"root" (Some false).
Definition assetsDir : File := demoFile #"22" #"assets" [] html #"root" (Some true).
Definition aTxt : File := demoFile #"24" #"a.txt" #"A" html #"root" (Some false).
Definition logoPng : File :=
  demoFile #"23" #"logo.png" #"data:image/png;base64,QUJD" image #"22" (Some false).

Definition assetSite : Project :=
  Project.mk #"1700000000300" #"Assets" type_html 1700000000300
    [ bTxt; assetsDir; logoPng; aTxt ] None.

(** A codec for the samples. The decoder follows the archive library's:
    it refuses a text that begins like a data URL, drops the characters
    outside the Base64 alphabet, refuses what is left when its length is
    no multiple of four, and decodes after RFC 4648. The encoder is UTF-8
    with surrogate pairs joined. *)
Definition b64value (c : N) : option N :=
  if ((65 <=? c) && (c <=? 90))%N then Some (c - 65)%N
  else if ((97 <=? c) && (c <=? 122))%N then Some (c - 71)%N
  else if ((48 <=? c) && (c <=? 57))%N then Some (c + 4)%N
  else if (c =? 43)%N then Some 62%N
  else if (c =? 47)%N then Some 63%N
  else None.

Fixpoint sextets (s : jsstring) : list N :=
  match s with
  | [] => []
  | c :: s' =>
      match b64value c with
      | Some v => v :: sextets s'
      | None => sextets s'
      end
  end.

Fixpoint packSextets (l : list N) : list N :=
  match l with
  | a :: b :: c :: d :: r =>
      (a * 4 + b / 16 :: (b mod 16) * 16 + c / 4 :: (c mod 4) * 64 + d
         :: packSextets r)%N
  | [a; b; c] => [a * 4 + b / 16; (b mod 16) * 16 + c / 4]%N
  | [a; b] => [a * 4 + b / 16]%N
  | _ => []
  end.

Definition utf8Bytes (c : N) : list N :=
  (if c <? 128 then [c]
   else if c <? 2048 then [192 + c / 64; 128 + c mod 64]
   else if c <? 65536 then
     [224 + c / 4096; 128 + (c / 64) mod 64; 128 + c mod 64]
   else [240 + c / 262144; 128 + (c / 4096) mod 64;
         128 + (c / 64) mod 64; 128 + c mod 64])%N.

Fixpoint utf8 (s : jsstring) : list N :=
  match s with
  | [] => []
  | c :: s' =>
      match s' with
      | d :: s'' =>
          if ((55296 <=? c) && (c <=? 56319)
              && (56320 <=? d) && (d <=? 57343))%N
          then utf8Bytes (65536 + (c - 55296) * 1024 + (d - 56320)) ++ utf8 s''
          else utf8Bytes c ++ utf8 s'
      | [] => utf8Bytes c
      end
  end.

Definition isBase64Char (c : N) : bool :=
  match b64value c with
  | Some _ => true
  | None => (c =? 61)%N
  end.

Definition sampleDecode (s : jsstring) : option (list N) :=
  if JS.startsWith s #"data:" then None
  else
    let kept := filter isBase64Char s in
    if (List.length kept mod 4 =? 0)%nat
    then Some (packSextets (sextets kept))
    else None.

Definition sampleCodec : JSZip.Codec :=
  {| JSZip.base64_decode := sampleDecode;
     JSZip.utf8_encode := utf8 |}.


Definition noComma : File :=
  demoFile #"32" #"bad.png" #"data:image/png;base64" image #"22" (Some false).

(** A host for the samples of the storage service: a list of projects is
    written as the ids of its projects between brackets, and a text is
    read by looking it up among the lists given in [known]. *)
Fixpoint idList (ps : list Project) : jsstring :=
  match ps with
  | [] => []
  | [p] => Project.id p
  | p :: ps' => Project.id p ++ #"," ++ idList ps'
  end.

Definition idText (ps : list Project) : jsstring :=
  #"[" ++ idList ps ++ #"]".

Definition tableHost (known : list (list Project)) : Storage.Host :=
  {| Storage.JSON_parse := fun s =>
       match find (fun ps => JS.eqb (idText ps) s) known with
       | Some ps => Normal ps
       | None => Throw Storage.SyntaxError
       end;
     Storage.JSON_stringify := idText;
     Storage.now_at := fun k => (1700000000000 + N.of_nat k)%N;
     Storage.random_at := fun k =>
       #"0." ++ JS.decimal (4159265358979 + 7919 * N.of_nat k) |}.

Definition tableWorld (ps : list Project) : Storage.World :=
  {| Storage.localStorage := [(Storage.STORAGE_KEY, idText ps)];
     Storage.ticks := 0; Storage.draws := 0 |}.

(** The explorer as it starts, with the form for a new folder open and a
    name typed between blanks; and with a rename under way. *)
Definition typingFolder : FileExplorer.State :=
  {| FileExplorer.newItemName := #"  images ";
     FileExplorer.addingType := Some FileExplorer.addingFolder;
     FileExplorer.activeFolderId := #"root";
     FileExplorer.editingId := None;
     FileExplorer.editName := [];
     FileExplorer.expandedFolders := [(#"root", true)] |}.

Definition renamingIndex : FileExplorer.State :=
  {| FileExplorer.newItemName := [];
     FileExplorer.addingType := None;
     FileExplorer.activeFolderId := #"root";
     FileExplorer.editingId := Some #"11";
     FileExplorer.editName := #" home.html";
     FileExplorer.expandedFolders := [(#"root", true)] |}.

(** The explorer with the folder [assets] of [assetSite] expanded. *)
Definition assetsExpanded : FileExplorer.State :=
  {| FileExplorer.newItemName := [];
     FileExplorer.addingType := None;
     FileExplorer.activeFolderId := #"22";
     FileExplorer.editingId := None;
     FileExplorer.editName := [];
     FileExplorer.expandedFolders := [(#"root", true); (#"22", true)] |}.

(** A rank for the folders of the samples: the top level above the rest. *)
Definition topRank (id : jsstring) : nat :=
  if JS.eqb id #"root" then 1 else 0.

(** A reading of payloads for the samples: the payload itself is the
    delta. *)
Definition echoDelta (payload : jsstring) : jsstring := payload.

(** A project with an image at the top level, and one whose only file is
    the image with two commas. *)
Definition rootLogo : File :=
  demoFile #"25" #"logo.png" #"data:image/png;base64,QUJD" image #"root"
    (Some false).

Definition imageSite : Project :=
  Project.mk #"1700000000400" #"Images" type_html 1700000000400
    [ bTxt; rootLogo; aTxt ] None.


(** An image whose Base64 text is one character short, and a project
    that holds it beside a text file. *)
Definition shortLogo : File :=
  demoFile #"26" #"logo.png" #"data:image/png;base64,QUJ" image #"root"
    (Some false).

Definition brokenSite : Project :=
  Project.mk #"1700000000600" #"Broken" type_html 1700000000600
    [ bTxt; shortLogo ] None.

(** [assetSite] under another name, as saved after a rename. *)
Definition assetSiteRenamed : Project :=
  Project.mk #"1700000000300" #"Assets 2" type_html 1700000000301
    [ bTxt; assetsDir; logoPng; aTxt ] None.

Unset Implicit Arguments.

(* ================================================================== *)
(** * Properties of the string primitives *)
(* ================================================================== *)

(** Closes a goal [~ In c l] for a literal [l] that does not hold [c]. *)
Ltac absent :=
  let H := fresh "H" in
  vm_compute; intros H;
  repeat (destruct H as [H|H]; [discriminate H|]);
  exact H.

Section StringFacts.

Lemma eqb_refl (a : jsstring) : JS.eqb a a = true.
Proof.
  induction a as [|x a IH]; simpl; [reflexivity|].
  now rewrite N.eqb_refl.
Qed.

Lemma eqb_eq (a b : jsstring) : JS.eqb a b = true <-> a = b.
Proof.
  split.
  - revert b. induction a as [|x a IH]; intros [|y b]; simpl; try discriminate.
    + reflexivity.
    + intros H. apply andb_true_iff in H as [Hx Hab].
      apply N.eqb_eq in Hx. f_equal; auto.
  - intros ->. apply eqb_refl.
Qed.

Lemma eqb_neq (a b : jsstring) : JS.eqb a b = false <-> a <> b.
Proof.
  rewrite <- eqb_eq. destruct (JS.eqb a b); split; congruence.
Qed.

Lemma trimStart_Forall (P : N -> Prop) (s : jsstring) :
  Forall P s -> Forall P (JS.trimStart s).
Proof.
  induction 1 as [|c s Hc Hs IH]; simpl; [constructor|].
  destruct (JS.isSpace c); [exact IH | now constructor].
Qed.

Lemma trimEnd_Forall (P : N -> Prop) (s : jsstring) :
  Forall P s -> Forall P (JS.trimEnd s).
Proof.
  induction 1 as [|c s Hc Hs IH]; simpl; [constructor|].
  destruct (JS.trimEnd s) as [|d t].
  - destruct (JS.isSpace c); repeat constructor; assumption.
  - now constructor.
Qed.

Lemma trimStart_idem (s : jsstring) :
  JS.trimStart (JS.trimStart s) = JS.trimStart s.
Proof.
  induction s as [|c s IH]; simpl; [reflexivity|].
  destruct (JS.isSpace c) eqn:E; [exact IH|].
  simpl. now rewrite E.
Qed.

Lemma trimEnd_idem (s : jsstring) :
  JS.trimEnd (JS.trimEnd s) = JS.trimEnd s.
Proof.
  induction s as [|c s IH]; simpl; [reflexivity|].
  destruct (JS.trimEnd s) as [|d t] eqn:E.
  - destruct (JS.isSpace c) eqn:Ec; simpl; [reflexivity|].
    now rewrite Ec.
  - change (JS.trimEnd (c :: d :: t)) with
      (match JS.trimEnd (d :: t) with
       | [] => if JS.isSpace c then [] else [c]
       | u => c :: u
       end).
    now rewrite IH.
Qed.

(** Stripping the front of a text with nothing to strip at the end leaves
    nothing to strip at the end. *)
Lemma trimEnd_trimStart_fixed (x : jsstring) :
  JS.trimEnd x = x -> JS.trimEnd (JS.trimStart x) = JS.trimStart x.
Proof.
  induction x as [|c x IH]; intros H; simpl; [reflexivity|].
  destruct (JS.isSpace c) eqn:Ec; [|exact H].
  apply IH. simpl in H. rewrite Ec in H.
  destruct (JS.trimEnd x) as [|d t]; [discriminate|].
  now injection H.
Qed.

Lemma trim_idem (s : jsstring) : JS.trim (JS.trim s) = JS.trim s.
Proof.
  unfold JS.trim.
  rewrite (trimEnd_trimStart_fixed (JS.trimEnd s) (trimEnd_idem s)).
  apply trimStart_idem.
Qed.

Lemma trim_Forall (P : N -> Prop) (s : jsstring) :
  Forall P s -> Forall P (JS.trim s).
Proof.
  intros H. unfold JS.trim. now apply trimStart_Forall, trimEnd_Forall.
Qed.

Lemma filter_fixed (A : Type) (p : A -> bool) (l : list A) :
  Forall (fun x => p x = true) l -> filter p l = l.
Proof.
  induction 1 as [|x l Hx Hl IH]; simpl; [reflexivity|].
  now rewrite Hx, IH.
Qed.

Lemma filter_Forall (A : Type) (p : A -> bool) (l : list A) :
  Forall (fun x => p x = true) (filter p l).
Proof.
  apply Forall_forall. intros x Hx. now apply filter_In in Hx.
Qed.

End StringFacts.

(* ================================================================== *)
(** * Sanitising the project name *)
(* ================================================================== *)

Section Sanitize.
Import ApkBuilder.

Lemma safeProjectName_allowed (s : jsstring) :
  Forall (fun c => allowedChar c = true) (safeProjectName s).
Proof.
  unfold safeProjectName.
  destruct (JS.trim (filter allowedChar s)) as [|c t] eqn:E.
  - repeat constructor.
  - rewrite <- E. apply trim_Forall, filter_Forall.
Qed.

Lemma safeProjectName_nonempty (s : jsstring) : safeProjectName s <> [].
Proof.
  unfold safeProjectName.
  destruct (JS.trim (filter allowedChar s)); discriminate.
Qed.

(** C8. Sanitising a project name that is already sanitised gives the same
    string: [safeProjectName] is idempotent on every input. *)
Theorem safeProjectName_idempotent (s : jsstring) :
  safeProjectName (safeProjectName s) = safeProjectName s.
Proof.
  unfold safeProjectName at 2 3.
  destruct (JS.trim (filter allowedChar s)) as [|c t] eqn:E.
  - reflexivity.
  - unfold safeProjectName.
    assert (Hall : Forall (fun x => allowedChar x = true) (c :: t)).
    { rewrite <- E. apply trim_Forall, filter_Forall. }
    rewrite (filter_fixed _ _ _ Hall).
    rewrite <- E at 1. rewrite trim_idem, E. reflexivity.
Qed.

End Sanitize.

(* ================================================================== *)
(** * Searching and replacing *)
(* ================================================================== *)

Section SearchFacts.

Lemma matchAt_exact (pat s m rest : jsstring) :
  JS.matchAt N.eqb pat s = Some (m, rest) <-> m = pat /\ s = pat ++ rest.
Proof.
  revert s m rest. induction pat as [|p pat IH]; intros s m rest; simpl.
  - split; [intros [= <- <-]; auto | intros [-> ->]; reflexivity].
  - destruct s as [|c s]; [split; [discriminate | intros [_ [=]]]|].
    destruct (N.eqb_spec p c) as [->|Hne].
    + destruct (JS.matchAt N.eqb pat s) as [[m' rest']|] eqn:E.
      * apply IH in E as [-> ->].
        split; [intros [= <- <-]; auto|].
        intros [-> H]. injection H as H. apply app_inv_head in H.
        now subst.
      * split; [discriminate|]. intros [-> [= ->]].
        assert (JS.matchAt N.eqb pat (pat ++ rest) = Some (pat, rest))
          by (apply IH; auto).
        congruence.
    + split; [discriminate|]. intros [_ [= H _]]. congruence.
Qed.

Lemma search_found (pat s before m after : jsstring) :
  JS.search N.eqb pat s = Some (before, m, after) ->
  m = pat /\ s = before ++ pat ++ after /\ firstAt pat before s.
Proof.
  revert before. induction s as [|c s IH]; intros before; simpl.
  - destruct (JS.matchAt N.eqb pat []) as [[m' r]|] eqn:E; [|discriminate].
    intros [= <- <- <-]. apply matchAt_exact in E as [-> E].
    repeat split; auto. intros a b _. simpl. lia.
  - destruct (JS.matchAt N.eqb pat (c :: s)) as [[m' r]|] eqn:E.
    + intros [= <- <- <-]. apply matchAt_exact in E as [-> E].
      repeat split; auto. intros a b _. simpl. lia.
    + destruct (JS.search N.eqb pat s) as [[[pre m'] r]|] eqn:Es;
        [|discriminate].
      intros [= <- <- <-].
      destruct (IH pre eq_refl) as (-> & Hs & Hfirst).
      repeat split; [simpl; now f_equal|].
      intros [|x a] b Hab.
      * exfalso. simpl in Hab.
        assert (JS.matchAt N.eqb pat (c :: s) = Some (pat, b))
          by (apply matchAt_exact; auto).
        congruence.
      * simpl in Hab. injection Hab as _ Hab.
        specialize (Hfirst a b Hab). simpl. lia.
Qed.

Lemma search_none (pat s : jsstring) :
  JS.search N.eqb pat s = None -> forall a b, s <> a ++ pat ++ b.
Proof.
  induction s as [|c s IH]; simpl.
  - destruct (JS.matchAt N.eqb pat []) as [[m r]|] eqn:E; [discriminate|].
    intros _ a b H. destruct a; simpl in H.
    + assert (JS.matchAt N.eqb pat [] = Some (pat, b))
        by (apply matchAt_exact; auto). congruence.
    + discriminate.
  - destruct (JS.matchAt N.eqb pat (c :: s)) as [[m r]|] eqn:E; [discriminate|].
    destruct (JS.search N.eqb pat s) as [[[pre m] r]|] eqn:Es; [discriminate|].
    intros _ [|x a] b H; simpl in H.
    + assert (JS.matchAt N.eqb pat (c :: s) = Some (pat, b))
        by (apply matchAt_exact; auto). congruence.
    + injection H as _ H. exact (IH eq_refl a b H).
Qed.

(** A replacement text without a dollar sign is inserted as it is. *)
Lemma getSubstitution_plain (matched before after template : jsstring) :
  ~ In 36%N template ->
  JS.getSubstitution matched before after template = template.
Proof.
  induction template as [|c t IH]; intros H; simpl; [reflexivity|].
  destruct (N.eqb_spec c 36) as [->|Hc].
  - exfalso. apply H. now left.
  - f_equal. apply IH. intros Hin. apply H. now right.
Qed.

Lemma replace_plain (s pat template before after : jsstring) :
  ~ In 36%N template ->
  s = before ++ pat ++ after ->
  firstAt pat before s ->
  JS.replace s pat template = before ++ template ++ after.
Proof.
  intros Hplain Hs Hfirst. unfold JS.replace, JS.replaceFirst.
  destruct (JS.search N.eqb pat s) as [[[pre m] r]|] eqn:E.
  - apply search_found in E as (-> & Hs' & Hfirst').
    rewrite getSubstitution_plain by assumption.
    assert (Hlen : List.length pre = List.length before).
    { pose proof (Hfirst pre r Hs'). pose proof (Hfirst' before after Hs). lia. }
    rewrite Hs in Hs'.
    assert (Hpre : before = pre).
    { apply (f_equal (firstn (List.length before))) in Hs'.
      rewrite firstn_app, firstn_all, Nat.sub_diag, firstn_O, app_nil_r in Hs'.
      rewrite <- Hlen, firstn_app, firstn_all, Nat.sub_diag, firstn_O,
        app_nil_r in Hs'. exact Hs'. }
    subst pre. apply app_inv_head in Hs'. apply app_inv_head in Hs'.
    now subst.
  - exfalso. exact (search_none _ _ E before after Hs).
Qed.

Lemma includes_true (s pat : jsstring) :
  JS.includes s pat = true <-> exists a b, s = a ++ pat ++ b.
Proof.
  unfold JS.includes.
  destruct (JS.search N.eqb pat s) as [[[pre m] r]|] eqn:E.
  - apply search_found in E as (-> & Hs & _). split; [eauto|reflexivity].
  - split; [discriminate|]. intros (a & b & H).
    exfalso. exact (search_none _ _ E a b H).
Qed.

Lemma includes_false (s pat : jsstring) :
  JS.includes s pat = false <-> forall a b, s <> a ++ pat ++ b.
Proof.
  pose proof (includes_true s pat) as [H1 H2].
  destruct (JS.includes s pat); split; intros H'; try discriminate;
    try reflexivity.
  - exfalso. destruct (H1 eq_refl) as (a & b & Hab). exact (H' a b Hab).
  - intros a b Hab. discriminate H2. eauto.
Qed.

End SearchFacts.

(* ================================================================== *)
(** * Single-file merge: entry point and archive contents *)
(* ================================================================== *)

Section SingleFile.
Import ApkBuilder.

Lemma findByName_none (n : jsstring) (files : list File) :
  findByName n files = None <->
  (forall f, In f files -> File.name f <> n).
Proof.
  unfold findByName. split.
  - intros H f Hf. apply eqb_neq. exact (find_none _ _ H f Hf).
  - intros H. induction files as [|g files IH]; simpl; [reflexivity|].
    destruct (JS.eqb (File.name g) n) eqn:E.
    + apply eqb_eq in E. exfalso. apply (H g); [now left | exact E].
    + apply IH. intros f Hf. apply H. now right.
Qed.

(** [find] returns the first file of the given name in stored order. *)
Lemma findByName_first (n : jsstring) (pre post : list File) (f : File) :
  File.name f = n ->
  (forall g, In g pre -> File.name g <> n) ->
  findByName n (pre ++ f :: post) = Some f.
Proof.
  intros Hf Hpre. unfold findByName.
  induction pre as [|g pre IH]; simpl.
  - rewrite (proj2 (eqb_eq _ _) Hf). reflexivity.
  - rewrite (proj2 (eqb_neq _ _) (Hpre g (or_introl eq_refl))).
    apply IH. intros g' Hg'. apply Hpre. now right.
Qed.

Lemma findByName_some (n : jsstring) (files : list File) (f : File) :
  findByName n files = Some f -> In f files /\ File.name f = n.
Proof.
  unfold findByName. intros H. apply find_some in H as [Hin Hn].
  split; [exact Hin | now apply eqb_eq].
Qed.

Lemma allowed_not_slash (c : N) : allowedChar c = true -> c <> 47%N.
Proof. intros H ->. discriminate H. Qed.

Lemma forceTrailingSlash_no_slash (s : jsstring) :
  ~ In 47%N s -> JSZip.forceTrailingSlash s = s ++ #"/".
Proof.
  intros H. unfold JSZip.forceTrailingSlash.
  destruct (rev s) as [|c r] eqn:E; [reflexivity|].
  destruct (N.eq_dec c 47) as [->|Hc].
  - exfalso. apply H. apply in_rev. rewrite E. now left.
  - destruct c as [|p]; [reflexivity|].
    repeat (destruct p as [p|p|]; try reflexivity); congruence.
Qed.

Lemma safeProjectName_no_slash (s : jsstring) : ~ In 47%N (safeProjectName s).
Proof.
  intros H.
  pose proof (safeProjectName_allowed s) as Hall.
  rewrite Forall_forall in Hall.
  exact (allowed_not_slash _ (Hall _ H) eq_refl).
Qed.

(** The root folder is always created, under the sanitised name followed
    by a slash, in an archive that holds nothing else. *)
Lemma root_folder_created (s : jsstring) :
  JSZip.folder [] (safeProjectName s) [] =
  Some (safeProjectName s ++ #"/", [(safeProjectName s ++ #"/", JSZip.Dir)]).
Proof.
  unfold JSZip.folder.
  pose proof (safeProjectName_nonempty s) as Hne.
  destruct (safeProjectName s) as [|c t] eqn:E; [congruence|].
  rewrite <- E. simpl app.
  rewrite (forceTrailingSlash_no_slash _ (safeProjectName_no_slash s)).
  reflexivity.
Qed.

Lemma file_beside_root (root : jsstring) (d : JSZip.data) :
  JSZip.file (root ++ #"/") #"index.html" d [(root ++ #"/", JSZip.Dir)] =
  [(root ++ #"/", JSZip.Dir); ((root ++ #"/") ++ #"index.html", JSZip.Entry d)].
Proof.
  unfold JSZip.file. simpl.
  replace (JS.eqb (root ++ #"/") ((root ++ #"/") ++ #"index.html")) with false;
    [reflexivity|].
  symmetry. apply eqb_neq. intros H.
  rewrite <- (app_nil_r (root ++ #"/")) in H at 1.
  apply app_inv_head in H. discriminate H.
Qed.

(** What the single-file mode returns, in closed form: the one text entry
    cannot fail to be generated. *)
Lemma exportProject_single (codec : JSZip.Codec) (fuel : nat) (p : Project) :
  exportProject codec fuel (Some p) true =
  match findByName #"index.html" (Project.files p) with
  | None => Some (Throw MissingEntryPoint)
  | Some indexFile =>
      let safe := safeProjectName (Project.name p) in
      let finalHtml :=
        mergeJs (Project.files p)
          (mergeCss (Project.files p) (File.content indexFile)) in
      Some (Normal
        {| download := safe ++ #".zip";
           zip := [(safe ++ #"/", JSZip.Dir);
                   ((safe ++ #"/") ++ #"index.html",
                    JSZip.Entry (JSZip.Text finalHtml))];
           blob := [(safe ++ #"/", JSZip.MemberDir);
                    ((safe ++ #"/") ++ #"index.html",
                     JSZip.MemberFile (JSZip.utf8_encode codec finalHtml))] |})
  end.
Proof.
  unfold exportProject. rewrite root_folder_created.
  destruct (findByName #"index.html" (Project.files p)); [|reflexivity].
  cbv zeta. now rewrite file_beside_root.
Qed.

(** C4. The single-file merge fails with [MissingEntryPoint] exactly when
    no file of the project is named [index.html]; a file of that name
    satisfies the precondition whatever its [parentId] is, and the merge
    then starts from the content of the first such file in stored order. *)
Theorem single_file_entry_point (codec : JSZip.Codec) (fuel : nat)
    (p : Project) :
  (exportProject codec fuel (Some p) true = Some (Throw MissingEntryPoint) <->
   (forall f, In f (Project.files p) -> File.name f <> #"index.html"))
  /\
  (forall pre f post,
     Project.files p = pre ++ f :: post ->
     File.name f = #"index.html" ->
     (forall g, In g pre -> File.name g <> #"index.html") ->
     exists d,
       exportProject codec fuel (Some p) true = Some (Normal d) /\
       Dict.get ((safeProjectName (Project.name p) ++ #"/") ++ #"index.html")
         (zip d) =
       Some (JSZip.Entry (JSZip.Text
         (mergeJs (Project.files p)
            (mergeCss (Project.files p) (File.content f)))))).
Proof.
  split.
  - rewrite exportProject_single, <- findByName_none.
    destruct (findByName #"index.html" (Project.files p)); split;
      intros H; congruence.
  - intros pre f post Hfiles Hname Hpre.
    rewrite exportProject_single, Hfiles.
    rewrite (findByName_first _ pre post f Hname Hpre).
    eexists. split; [reflexivity|].
    cbn [zip Dict.get].
    replace (JS.eqb (safeProjectName (Project.name p) ++ #"/")
               ((safeProjectName (Project.name p) ++ #"/") ++ #"index.html"))
      with false.
    + now rewrite eqb_refl.
    + symmetry. apply eqb_neq. intros H.
      rewrite <- (app_nil_r (safeProjectName (Project.name p) ++ #"/")) in H at 1.
      apply app_inv_head in H. discriminate H.
Qed.

End SingleFile.

Section SingleFileArchive.
Import ApkBuilder.

(** C4, at [demoSite]: the entry page lies inside the folder [pages]. *)
Lemma single_file_entry_point_witness :
  exists d,
    exportProject sampleCodec 0 (Some demoSite) true = Some (Normal d) /\
    Dict.get ((safeProjectName (Project.name demoSite) ++ #"/") ++ #"index.html")
      (zip d) =
    Some (JSZip.Entry (JSZip.Text
      (mergeJs (Project.files demoSite)
         (mergeCss (Project.files demoSite)
            demoIndexHtml)))).
Proof.
  refine (proj2 (single_file_entry_point sampleCodec 0 demoSite)
            [demoPages] demoIndex _ eq_refl eq_refl _).
  intros g [<-|[]]. vm_compute. discriminate.
Defined.

(** C7. Whenever the single-file merge accepts a project, the archive
    holds the top-level folder named after the sanitised project name and,
    inside it, one file, [index.html], and nothing else, however many
    files the project has. That file is the merged document: the content
    of the first file named [index.html], with the style sheet and the
    script merged in, and its bytes in the generated archive are the
    UTF-8 encoding of that text. The sanitised name is not empty and
    contains no slash, so the folder is a single top-level one. *)
Theorem single_file_archive (codec : JSZip.Codec) (fuel : nat) (p : Project)
    (d : Download) :
  exportProject codec fuel (Some p) true = Some (Normal d) ->
  let safe := safeProjectName (Project.name p) in
  safe <> [] /\ ~ In 47%N safe /\
  download d = safe ++ #".zip" /\
  exists indexFile,
    findByName #"index.html" (Project.files p) = Some indexFile /\
    In indexFile (Project.files p) /\
    File.name indexFile = #"index.html" /\
    let finalHtml :=
      mergeJs (Project.files p)
        (mergeCss (Project.files p) (File.content indexFile)) in
    zip d = [ (safe ++ #"/", JSZip.Dir);
              ((safe ++ #"/") ++ #"index.html",
               JSZip.Entry (JSZip.Text finalHtml)) ] /\
    blob d = [ (safe ++ #"/", JSZip.MemberDir);
               ((safe ++ #"/") ++ #"index.html",
                JSZip.MemberFile (JSZip.utf8_encode codec finalHtml)) ].
Proof.
  intros H safe.
  split; [apply safeProjectName_nonempty|].
  split; [apply safeProjectName_no_slash|].
  rewrite exportProject_single in H.
  destruct (findByName #"index.html" (Project.files p)) as [f|] eqn:Ef;
    [|discriminate].
  injection H as <-. split; [reflexivity|].
  exists f. split; [reflexivity|].
  destruct (findByName_some _ _ _ Ef) as [Hin Hname].
  split; [exact Hin|]. split; [exact Hname|].
  cbv zeta. split; reflexivity.
Qed.

(** C7 at [demoSite]: the one file of the archive is the merge worked out
    in [merge_demoSite]'s terms, from the page inside [pages]. *)
Lemma single_file_archive_witness :
  exists d,
    exportProject sampleCodec 0 (Some demoSite) true = Some (Normal d) /\
    download d = #"My Site.zip" /\
    zip d =
    [ (#"My Site/", JSZip.Dir);
      (#"My Site/index.html",
       JSZip.Entry (JSZip.Text
         (mergeJs (Project.files demoSite)
            (mergeCss (Project.files demoSite) demoIndexHtml)))) ].
Proof.
  destruct (exportProject sampleCodec 0 (Some demoSite) true)
    as [[d|e]|] eqn:E; try (vm_compute in E; discriminate).
  exists d. split; [reflexivity|].
  destruct (single_file_archive sampleCodec 0 demoSite d E)
    as (_ & _ & Hd & f & Hf & _ & _ & Hz & _).
  split; [exact Hd|].
  injection Hf as <-. exact Hz.
Defined.

End SingleFileArchive.

(* ================================================================== *)
(** * The storage service *)
(* ================================================================== *)

Section StorageFacts.
Import Storage.

(** C10. [getProjects] always returns normally. It returns the empty list
    when nothing is stored under the key, when the empty string is stored,
    and when [JSON.parse] throws on the stored text; it returns what
    [JSON.parse] returns when the stored text parses. (The empty string is
    no JSON text; the code takes it for an absent value.) *)
Theorem getProjects_never_throws (h : Host) (w : World) :
  (exists ps, getProjects h w = Normal ps) /\
  (Dict.get STORAGE_KEY (localStorage w) = None ->
   getProjects h w = Normal []) /\
  (Dict.get STORAGE_KEY (localStorage w) = Some [] ->
   getProjects h w = Normal []) /\
  (forall data e,
     Dict.get STORAGE_KEY (localStorage w) = Some data ->
     JSON_parse h data = Throw e ->
     getProjects h w = Normal []) /\
  (forall data ps,
     Dict.get STORAGE_KEY (localStorage w) = Some data ->
     data <> [] ->
     JSON_parse h data = Normal ps ->
     getProjects h w = Normal ps).
Proof.
  unfold getProjects.
  destruct (Dict.get STORAGE_KEY (localStorage w)) as [[|c d]|] eqn:E;
    simpl.
  - split; [now eexists|]. split; [reflexivity|]. split; [reflexivity|].
    split.
    + intros data e _ _. reflexivity.
    + intros data ps [= <-] Hne. congruence.
  - split; [destruct (JSON_parse h (c :: d)); now eexists|].
    split; [discriminate|]. split; [discriminate|]. split.
    + intros data e [= <-] ->. reflexivity.
    + intros data ps [= <-] _ ->. reflexivity.
  - split; [now eexists|]. split; [reflexivity|]. split; [discriminate|].
    split; intros; discriminate.
Qed.

Lemma getProjects_never_throws_witness :
  getProjects demoHost demoWorld = Normal [demoSite].
Proof.
  refine (proj2 (proj2 (proj2 (proj2
            (getProjects_never_throws demoHost demoWorld))))
            demoSerialized [demoSite] eq_refl _ eq_refl).
  discriminate.
Defined.

Lemma find_project_none (id : jsstring) (projects : list Project) :
  (forall p, In p projects -> Project.id p <> id) ->
  find (fun p => JS.eqb (Project.id p) id) projects = None.
Proof.
  induction projects as [|p ps IH]; intros Hid; simpl; [reflexivity|].
  rewrite (proj2 (eqb_neq _ _) (Hid p (or_introl eq_refl))).
  apply IH. intros q Hq. apply Hid. now right.
Qed.

(** C9. When no stored project has the given id, [duplicateProject]
    returns null and changes nothing: the store, and with it the persisted
    project list, is what it was. *)
Theorem duplicateProject_unknown_id (h : Host) (w : World) (id : jsstring)
    (projects : list Project) :
  getProjects h w = Normal projects ->
  (forall p, In p projects -> Project.id p <> id) ->
  duplicateProject h id w = (Normal None, w).
Proof.
  intros Hget Hid. unfold duplicateProject.
  now rewrite Hget, (find_project_none id projects Hid).
Qed.

Lemma duplicateProject_unknown_id_witness :
  duplicateProject demoHost #"42" demoWorld = (Normal None, demoWorld).
Proof.
  apply (duplicateProject_unknown_id demoHost demoWorld #"42" [demoSite]).
  - reflexivity.
  - intros p [<-|[]]. vm_compute. discriminate.
Defined.

(** ** Duplication *)

(** The copies keep every field of the originals but the id. *)
Lemma regenerateIds_parentId (h : Host) (files : list File) (w : World) :
  map File.parentId (fst (regenerateIds h files w)) = map File.parentId files.
Proof.
  revert w. induction files as [|f files IH]; intros w; simpl; [reflexivity|].
  destruct (regenerateIds h files _) as [rest w3] eqn:E. simpl.
  f_equal. specialize (IH (snd (Math_random h (snd (Date_now h w))))).
  simpl in IH. rewrite E in IH. exact IH.
Qed.

Lemma regenerateIds_length (h : Host) (files : list File) (w : World) :
  List.length (fst (regenerateIds h files w)) = List.length files.
Proof.
  rewrite <- (length_map File.parentId), regenerateIds_parentId.
  apply length_map.
Qed.

(** What [duplicateProject] returns for a stored project. *)
Lemma duplicateProject_files (h : Host) (w w' : World) (id : jsstring)
    (projects : list Project) (original newProject : Project) :
  getProjects h w = Normal projects ->
  find (fun p => JS.eqb (Project.id p) id) projects = Some original ->
  duplicateProject h id w = (Normal (Some newProject), w') ->
  map File.parentId (Project.files newProject) =
  map File.parentId (Project.files original).
Proof.
  intros Hget Hfind. unfold duplicateProject. rewrite Hget, Hfind.
  cbv zeta. simpl.
  destruct (regenerateIds h (Project.files original) _) as [files' w3] eqn:E.
  intros [= <- _]. simpl.
  rewrite <- (regenerateIds_parentId h (Project.files original)
                {| localStorage := localStorage w; ticks := S (S (ticks w));
                   draws := draws w |}).
  now rewrite E.
Qed.

(** C1. In the duplicate every file keeps the [parentId] it had in the
    original. So for a child and its parent in the original, the copied
    child still points at the original parent's id: whenever the copied
    parent's id is new (not an id of the original project), the copied
    child does not point at the copied parent, and the parent-child
    structure is lost. *)
Theorem duplicateProject_parent_links (h : Host) (w w' : World)
    (id : jsstring) (projects : list Project) (original newProject : Project)
    (i j : nat) (child parent child' parent' : File) :
  getProjects h w = Normal projects ->
  find (fun p => JS.eqb (Project.id p) id) projects = Some original ->
  duplicateProject h id w = (Normal (Some newProject), w') ->
  nth_error (Project.files original) i = Some child ->
  nth_error (Project.files original) j = Some parent ->
  nth_error (Project.files newProject) i = Some child' ->
  nth_error (Project.files newProject) j = Some parent' ->
  File.parentId child = File.id parent ->
  ~ In (File.id parent') (map File.id (Project.files original)) ->
  File.parentId child' = File.id parent /\
  File.parentId child' <> File.id parent'.
Proof.
  intros Hget Hfind Hdup Hc Hp Hc' Hp' Hlink Hfresh.
  pose proof (duplicateProject_files h w w' id projects original newProject
                Hget Hfind Hdup) as Hmap.
  assert (Hsame : File.parentId child' = File.parentId child).
  { apply (map_nth_error File.parentId) in Hc, Hc'.
    rewrite Hmap in Hc'. congruence. }
  split; [congruence|].
  intros Heq. apply Hfresh.
  rewrite <- Heq, Hsame, Hlink.
  apply in_map. eapply nth_error_In. exact Hp.
Qed.

(** C1, at [demoSite]: the copy of [index.html] still points at the id
    [10] of the original folder [pages], whose copy has a new id. *)
Lemma duplicateProject_parent_links_witness :
  exists newProject w' child' parent',
    duplicateProject demoHost #"1700000000000" demoWorld =
      (Normal (Some newProject), w') /\
    nth_error (Project.files newProject) 1 = Some child' /\
    nth_error (Project.files newProject) 0 = Some parent' /\
    File.name child' = #"index.html" /\ File.name parent' = #"pages" /\
    File.parentId child' = #"10" /\
    File.parentId child' <> File.id parent'.
Proof.
  do 4 eexists.
  split; [vm_compute; reflexivity|].
  split; [vm_compute; reflexivity|].
  split; [vm_compute; reflexivity|].
  split; [reflexivity|]. split; [reflexivity|].
  eapply (duplicateProject_parent_links demoHost demoWorld _
            #"1700000000000" [demoSite] demoSite _ 1 0 demoIndex demoPages).
  - reflexivity.
  - reflexivity.
  - vm_compute. reflexivity.
  - reflexivity.
  - reflexivity.
  - reflexivity.
  - reflexivity.
  - reflexivity.
  - absent.
Defined.

End StorageFacts.

(* ================================================================== *)
(** * Single-file merge: injecting the style sheet and the script *)
(* ================================================================== *)

Section Injection.
Import ApkBuilder.

Lemma cssBlock_plain (cssContent tail : jsstring) :
  ~ In 36%N cssContent -> ~ In 36%N tail ->
  ~ In 36%N (cssBlock cssContent ++ nl ++ tail).
Proof.
  intros Hc Ht. unfold cssBlock.
  repeat rewrite in_app_iff.
  intros H; repeat destruct H as [H|H]; auto;
    vm_compute in H; repeat destruct H as [H|H]; try discriminate H; auto.
Qed.

(** With a style sheet free of dollar signs, the style block goes right
    before the first [</head>], and the text around it stays as it was. *)
Lemma injectCss_before_head (doc cssContent before after : jsstring) :
  ~ In 36%N cssContent ->
  doc = before ++ #"</head>" ++ after ->
  firstAt #"</head>" before doc ->
  injectCss doc cssContent =
  before ++ (cssBlock cssContent ++ nl ++ #"</head>") ++ after.
Proof.
  intros Hplain Hdoc Hfirst. unfold injectCss.
  rewrite (proj2 (includes_true doc #"</head>"))
    by (exists before, after; exact Hdoc).
  apply replace_plain; auto.
  apply cssBlock_plain; [exact Hplain | absent].
Qed.

(** Without [</head>] and without [<body] the block is put in front. *)
Lemma injectCss_prepended (doc cssContent : jsstring) :
  (forall a b, doc <> a ++ #"</head>" ++ b) ->
  (forall a b, doc <> a ++ #"<body" ++ b) ->
  injectCss doc cssContent = cssBlock cssContent ++ nl ++ doc.
Proof.
  intros Hh Hb. unfold injectCss.
  rewrite (proj2 (includes_false doc #"</head>") Hh).
  rewrite (proj2 (includes_false doc #"<body") Hb).
  reflexivity.
Qed.

(** The test for [<body] is case-sensitive while the replacement is not:
    an upper-case tag ahead of the lower-case one receives the block and
    is rewritten in lower case. *)
Lemma injectCss_upper_case_body :
  injectCss #"<BODY class='a'><p><body></p>" #"p{}" =
  cssBlock #"p{}" ++ nl ++ #"<body class='a'><p><body></p>".
Proof. vm_compute. reflexivity. Qed.

(** C5, at [priceStyled]: the style sheet holds two dollar signs in a row
    and the document has a [</head>]. The merged document carries the
    style block right before [</head>], but with one dollar sign where the
    file has two: the replacement text is read as a substitution template,
    so the content of the file is not inserted as it is. *)
Theorem style_block_loses_dollar (codec : JSZip.Codec) :
  exists d,
    exportProject codec 0 (Some priceStyled) true = Some (Normal d) /\
    Dict.get #"Price list/index.html" (zip d) =
    Some (JSZip.Entry (JSZip.Text
            (#"<html><head>" ++ cssBlock #".price::before{content:'$'}"
             ++ nl ++ #"</head><body></body></html>"))) /\
    #"<html><head>" ++ cssBlock #".price::before{content:'$'}"
      ++ nl ++ #"</head><body></body></html>"
    <> #"<html><head>" ++ cssBlock priceCss
         ++ nl ++ #"</head><body></body></html>".
Proof.
  eexists. split; [vm_compute; reflexivity|].
  split; [vm_compute; reflexivity|].
  vm_compute. discriminate.
Qed.

(** ** The script *)

(** [script.js] is chosen whenever it exists, whether or not [main.js]
    does; [main.js] is chosen only when [script.js] is missing. *)
Lemma findJsFile_choice (files : list File) :
  findJsFile files =
  match findByName #"script.js" files with
  | Some f => Some f
  | None => findByName #"main.js" files
  end.
Proof. reflexivity. Qed.

Lemma findJsFile_script (files : list File) (f : File) :
  findByName #"script.js" files = Some f -> findJsFile files = Some f.
Proof. intros H. unfold findJsFile. now rewrite H. Qed.

Lemma findJsFile_name (files : list File) (f : File) :
  findJsFile files = Some f ->
  File.name f = #"script.js" \/
  (File.name f = #"main.js" /\
   forall g, In g files -> File.name g <> #"script.js").
Proof.
  unfold findJsFile.
  destruct (findByName #"script.js" files) as [g|] eqn:E.
  - intros [= <-]. left. now apply findByName_some in E.
  - intros H. right. split.
    + now apply findByName_some in H.
    + now apply findByName_none.
Qed.

(** With a script free of dollar signs, the script block goes right before
    the first [</body>]. *)
Lemma injectJs_before_body (doc before after : jsstring) (jsFile : File) :
  ~ In 36%N (File.name jsFile) -> ~ In 36%N (File.content jsFile) ->
  doc = before ++ #"</body>" ++ after ->
  firstAt #"</body>" before doc ->
  injectJs doc jsFile = before ++ (jsBlock jsFile ++ nl ++ #"</body>") ++ after.
Proof.
  intros Hn Hc Hdoc Hfirst. unfold injectJs.
  rewrite (proj2 (includes_true doc #"</body>"))
    by (exists before, after; exact Hdoc).
  apply replace_plain; auto.
  unfold jsBlock. repeat rewrite in_app_iff.
  intros H; repeat destruct H as [H|H]; auto;
    vm_compute in H; repeat destruct H as [H|H]; try discriminate H; auto.
Qed.

(** Without [</body>] the block is put at the end. *)
Lemma injectJs_appended (doc : jsstring) (jsFile : File) :
  (forall a b, doc <> a ++ #"</body>" ++ b) ->
  injectJs doc jsFile = doc ++ nl ++ jsBlock jsFile.
Proof.
  intros H. unfold injectJs.
  now rewrite (proj2 (includes_false doc #"</body>") H).
Qed.

(** C6, at [priceScripted]: [script.js] is chosen over [main.js], and its
    block is put before [</body>]; but the script holds a dollar sign
    followed by an apostrophe, which the replacement reads as the text
    after the match, so the merged document carries [</html>] inside the
    script where the file has the two characters. *)
Theorem script_block_loses_dollar (codec : JSZip.Codec) :
  findJsFile (Project.files priceScripted) =
    Some (demoFile #"3" #"script.js" priceJs javascript #"root" None) /\
  exists d,
    exportProject codec 0 (Some priceScripted) true = Some (Normal d) /\
    Dict.get #"Price list/index.html" (zip d) =
    Some (JSZip.Entry (JSZip.Text
            (#"<html><body><script>" ++ nl
             ++ #"/* Injected from script.js */" ++ nl
             ++ #"total.textContent = '</html> + sum;" ++ nl
             ++ #"</script>" ++ nl ++ #"</body></html>"))) /\
    injectJs #"<html><body></body></html>"
      (demoFile #"3" #"script.js" priceJs javascript #"root" None)
    <> #"<html><body>"
         ++ jsBlock (demoFile #"3" #"script.js" priceJs javascript #"root" None)
         ++ nl ++ #"</body></html>".
Proof.
  split; [reflexivity|].
  eexists. split; [vm_compute; reflexivity|].
  split; [vm_compute; reflexivity|].
  vm_compute. discriminate.
Qed.

(** The merge of [demoSite]: both blocks are in place and the tags that
    referred to the two files are gone. *)
Example merge_demoSite :
  mergeJs (Project.files demoSite)
    (mergeCss (Project.files demoSite) demoIndexHtml) =
  #"<html><head>" ++ cssBlock #"body{color:red}" ++ nl
  ++ #"</head><body>"
  ++ jsBlock (demoFile #"13" #"script.js" #"console.log(1)" javascript
                #"root" None)
  ++ nl ++ #"</body></html>".
Proof. vm_compute. reflexivity. Qed.

End Injection.

(* ================================================================== *)
(** * The order of children: display and export *)
(* ================================================================== *)

Section SortFacts.
Import FileExplorer.

Variable cmp : File -> File -> Z.

Lemma insert_perm (x : File) (l : list File) :
  Permutation (insert cmp x l) (x :: l).
Proof.
  induction l as [|y l IH]; simpl; [reflexivity|].
  destruct (cmp x y <=? 0)%Z; [reflexivity|].
  rewrite IH. apply perm_swap.
Qed.

Lemma sort_perm (l : list File) : Permutation (sort cmp l) l.
Proof.
  induction l as [|x l IH]; simpl; [reflexivity|].
  rewrite insert_perm. now constructor.
Qed.

(** The comparison is a total preorder on the items at hand. *)
Variable D : File -> Prop.
Hypothesis cmp_total :
  forall a b, D a -> D b -> (0 < cmp a b)%Z -> (cmp b a <= 0)%Z.
Hypothesis cmp_trans :
  forall a b c, D a -> D b -> D c ->
    (cmp a b <= 0)%Z -> (cmp b c <= 0)%Z -> (cmp a c <= 0)%Z.

Lemma insert_sorted (x : File) (l : list File) :
  D x -> Forall D l ->
  StronglySorted (fun a b => (cmp a b <= 0)%Z) l ->
  StronglySorted (fun a b => (cmp a b <= 0)%Z) (insert cmp x l).
Proof.
  intros Hx HD Hs. induction Hs as [|y l Hs IH Hy]; simpl.
  - repeat constructor.
  - inversion HD as [|? ? Dy Dl]; subst.
    destruct (Z.leb_spec (cmp x y) 0) as [Hle|Hgt].
    + constructor; [now constructor|].
      constructor; [exact Hle|].
      rewrite Forall_forall in Hy, Dl |- *.
      intros z Hz. apply (cmp_trans x y z); auto.
    + constructor; [now apply IH|].
      rewrite Forall_forall in Hy |- *.
      intros z Hz. apply (Permutation_in _ (insert_perm x l)) in Hz.
      destruct Hz as [<-|Hz]; [now apply cmp_total | now apply Hy].
Qed.

Lemma sort_sorted (l : list File) :
  Forall D l -> StronglySorted (fun a b => (cmp a b <= 0)%Z) (sort cmp l).
Proof.
  induction 1 as [|x l Hx Hl IH]; simpl; [constructor|].
  apply insert_sorted; auto.
  rewrite Forall_forall in Hl |- *. intros z Hz.
  apply Hl. exact (Permutation_in _ (sort_perm l) Hz).
Qed.

End SortFacts.

Lemma StronglySorted_weaken (A : Type) (R R' : A -> A -> Prop) (l : list A) :
  (forall a b, R a b -> R' a b) -> StronglySorted R l -> StronglySorted R' l.
Proof.
  intros HR. induction 1 as [|x l Hs IH Hx]; constructor; [exact IH|].
  rewrite Forall_forall in Hx |- *. auto.
Qed.

Section Listing.
Import FileExplorer ApkBuilder.

Variable localeCompare : jsstring -> jsstring -> Z.

(** An item the comparison function puts first may stand first. *)
Lemma compareItems_foldersFirst (a b : File) :
  (compareItems localeCompare a b <= 0)%Z -> foldersFirst localeCompare a b.
Proof.
  unfold compareItems, foldersFirst.
  destruct (File.isDirectory a) as [[|]|], (File.isDirectory b) as [[|]|];
    simpl; intros H; try lia; auto.
Qed.

(** An item without the flag and one with the flag set to false are
    each put after the other: on such a pair the comparison function is
    not an order, whatever the names are. *)
Lemma compareItems_mixed_flags (a b : File) :
  File.isDirectory a = None -> File.isDirectory b = Some false ->
  compareItems localeCompare a b = 1%Z /\
  compareItems localeCompare b a = 1%Z.
Proof.
  intros Ha Hb. unfold compareItems. rewrite Ha, Hb. split; reflexivity.
Qed.

Hypothesis localeCompare_total :
  forall a b, (0 < localeCompare a b)%Z -> (localeCompare b a <= 0)%Z.
Hypothesis localeCompare_trans :
  forall a b c, (localeCompare a b <= 0)%Z -> (localeCompare b c <= 0)%Z ->
    (localeCompare a c <= 0)%Z.

Lemma compareItems_total (items : list File) (a b : File) :
  uniformFlags items -> In a items -> In b items ->
  (0 < compareItems localeCompare a b)%Z ->
  (compareItems localeCompare b a <= 0)%Z.
Proof.
  intros U Ha Hb. pose proof (U a b Ha Hb) as Uab.
  unfold compareItems.
  destruct (File.isDirectory a) as [[|]|], (File.isDirectory b) as [[|]|];
    simpl in *; intros H; try lia; auto;
    specialize (Uab eq_refl); discriminate.
Qed.

Lemma compareItems_trans (items : list File) (a b c : File) :
  uniformFlags items -> In a items -> In b items -> In c items ->
  (compareItems localeCompare a b <= 0)%Z ->
  (compareItems localeCompare b c <= 0)%Z ->
  (compareItems localeCompare a c <= 0)%Z.
Proof.
  intros U Ha Hb Hc.
  pose proof (U a b Ha Hb) as Uab. pose proof (U b c Hb Hc) as Ubc.
  pose proof (U a c Ha Hc) as Uac.
  unfold compareItems.
  destruct (File.isDirectory a) as [[|]|], (File.isDirectory b) as [[|]|],
    (File.isDirectory c) as [[|]|];
    simpl in *; intros H1 H2; try lia; eauto;
    try (specialize (Uab eq_refl); discriminate);
    try (specialize (Ubc eq_refl); discriminate);
    try (specialize (Uac eq_refl); discriminate).
Qed.

(** C2, as the code has it. For every list of files and every parent id:
    the child listing of the display is a rearrangement of the files whose
    [parentId] is the given id, with folders before files and, within each
    group, names in the order of the host's [localeCompare] (taken to be a
    total preorder; the optional [isDirectory] flag recorded uniformly);
    the export traversal visits the same files in stored order, without
    sorting. Both are functions of the list of files. *)
Theorem children_display_and_export (files : list File) (parentId : jsstring) :
  uniformFlags (childrenOf files parentId) ->
  let shown := renderTree_items localeCompare files parentId in
  let exported :=
    filter (fun f => JS.eqb (File.parentId f) parentId) files in
  (forall f, In f exported <-> In f files /\ File.parentId f = parentId) /\
  Permutation shown exported /\
  StronglySorted (foldersFirst localeCompare) shown /\
  (forall fuel currentZipFolder z,
     processFolder (S fuel) files parentId currentZipFolder z =
     fold_left (processItem (processFolder fuel files) currentZipFolder)
       exported (Some z)).
Proof.
  intros U shown exported. split; [|split; [|split]].
  - intros f. unfold exported. rewrite filter_In, eqb_eq. reflexivity.
  - apply sort_perm.
  - apply StronglySorted_weaken with
      (R := fun a b => (compareItems localeCompare a b <= 0)%Z).
    + apply compareItems_foldersFirst.
    + apply sort_sorted with (D := fun f => In f (childrenOf files parentId)).
      * intros a b. now apply compareItems_total.
      * intros a b c. now apply compareItems_trans.
      * now apply Forall_forall.
  - reflexivity.
Qed.

End Listing.

Section OrdinalOrder.
Import FileExplorer ApkBuilder.

Lemma ordinalCompare_total (a b : jsstring) :
  (0 < ordinalCompare a b)%Z -> (ordinalCompare b a <= 0)%Z.
Proof.
  revert b. induction a as [|x a IH]; intros [|y b]; simpl; try lia.
  rewrite (N.compare_antisym x y).
  destruct (x ?= y)%N; simpl; try lia. apply IH.
Qed.

Lemma ordinalCompare_trans (a b c : jsstring) :
  (ordinalCompare a b <= 0)%Z -> (ordinalCompare b c <= 0)%Z ->
  (ordinalCompare a c <= 0)%Z.
Proof.
  revert b c. induction a as [|x a IH]; intros [|y b] [|z c]; simpl;
    try lia.
  destruct (N.compare_spec x y), (N.compare_spec y z), (N.compare_spec x z);
    subst; try lia; intros; eauto.
Qed.

Lemma assetSite_uniform :
  uniformFlags (childrenOf (Project.files assetSite) #"root").
Proof.
  intros f g Hf Hg. vm_compute in Hf, Hg.
  repeat destruct Hf as [Hf|Hf]; repeat destruct Hg as [Hg|Hg];
    subst; try contradiction; simpl; intros H;
    try reflexivity; discriminate H.
Qed.

(** C2, as claimed, fails on the export side. The top level of
    [assetSite] is exported in stored order, [b.txt], [assets], [a.txt]: a
    file before a folder, and [b.txt] before [a.txt]. The archive lists
    its entries in that order. *)
Lemma export_order_is_stored_order :
  childrenOf (Project.files assetSite) #"root" = [bTxt; assetsDir; aTxt] /\
  ~ StronglySorted (foldersFirst ordinalCompare)
      (childrenOf (Project.files assetSite) #"root") /\
  exists d,
    exportProject sampleCodec 2 (Some assetSite) false = Some (Normal d) /\
    map fst (zip d) =
    [ #"Assets/"; #"Assets/b.txt"; #"Assets/assets/";
      #"Assets/assets/logo.png"; #"Assets/a.txt" ].
Proof.
  split; [reflexivity|]. split.
  - intros H. change (childrenOf (Project.files assetSite) #"root")
      with [bTxt; assetsDir; aTxt] in H.
    inversion H as [|? ? _ Hb]; subst.
    inversion Hb as [|? ? [[Hd _]|[Hd _]] _]; subst; discriminate Hd.
  - eexists. split; vm_compute; reflexivity.
Qed.

(** C2 at [assetSite], with the ordinal comparison as the host's: the
    display lists [assets], [a.txt], [b.txt]. *)
Lemma children_display_and_export_witness :
  renderTree_items ordinalCompare (Project.files assetSite) #"root" =
    [assetsDir; aTxt; bTxt] /\
  StronglySorted (foldersFirst ordinalCompare)
    (renderTree_items ordinalCompare (Project.files assetSite) #"root") /\
  Permutation
    (renderTree_items ordinalCompare (Project.files assetSite) #"root")
    [bTxt; assetsDir; aTxt].
Proof.
  split; [reflexivity|].
  destruct (children_display_and_export ordinalCompare
              ordinalCompare_total ordinalCompare_trans
              (Project.files assetSite) #"root" assetSite_uniform)
    as (_ & Hperm & Hsorted & _).
  split; [exact Hsorted | exact Hperm].
Defined.

End OrdinalOrder.

(* ================================================================== *)
(** * Standard export: what is written for a leaf *)
(* ================================================================== *)

Section SplitFacts.

Lemma split_nonempty (sep : N) (s : jsstring) : JS.split sep s <> [].
Proof.
  destruct s as [|c s]; simpl; [discriminate|].
  destruct (c =? sep)%N; [discriminate|].
  destruct (JS.split sep s); discriminate.
Qed.

Lemma split_no_separator (sep : N) (s : jsstring) :
  ~ In sep s -> JS.split sep s = [s].
Proof.
  induction s as [|c s IH]; intros H; simpl; [reflexivity|].
  destruct (N.eqb_spec c sep) as [->|Hc].
  - exfalso. apply H. now left.
  - rewrite IH; [reflexivity|]. intros Hin. apply H. now right.
Qed.



End SplitFacts.

Section DictFacts.
Variable V : Type.

Lemma get_set_same (k : jsstring) (v : V) (d : Dict.t V) :
  Dict.get k (Dict.set k v d) = Some v.
Proof.
  induction d as [|[k' v'] d IH]; simpl.
  - now rewrite eqb_refl.
  - destruct (JS.eqb k' k) eqn:E; simpl.
    + now rewrite eqb_refl.
    + now rewrite E.
Qed.

Lemma get_set_other (k k' : jsstring) (v : V) (d : Dict.t V) :
  k <> k' -> Dict.get k (Dict.set k' v d) = Dict.get k d.
Proof.
  intros Hne. induction d as [|[k0 v0] d IH]; simpl.
  - now rewrite (proj2 (eqb_neq k' k)) by congruence.
  - destruct (JS.eqb k0 k') eqn:E; simpl.
    + apply eqb_eq in E. subst k0.
      now rewrite (proj2 (eqb_neq k' k)) by congruence.
    + destruct (JS.eqb k0 k); [reflexivity | exact IH].
Qed.

Lemma set_in (k k' : jsstring) (v v' : V) (d : Dict.t V) :
  In (k, v) (Dict.set k' v' d) -> k = k' \/ In (k, v) d.
Proof.
  induction d as [|[k0 v0] d IH]; simpl.
  - intros [[= <- <-]|[]]. now left.
  - destruct (JS.eqb k0 k'); simpl.
    + intros [[= <- <-]|H]; [now left | right; now right].
    + intros [H|H]; [right; now left|].
      destruct (IH H) as [->|Hin]; [now left | right; now right].
Qed.

Lemma set_in_entry (k k' : jsstring) (v v' : V) (d : Dict.t V) :
  In (k, v) (Dict.set k' v' d) -> (k = k' /\ v = v') \/ In (k, v) d.
Proof.
  induction d as [|[k0 v0] d IH]; simpl.
  - intros [[= <- <-]|[]]. now left.
  - destruct (JS.eqb k0 k'); simpl.
    + intros [[= <- <-]|H]; [now left | right; now right].
    + intros [H|H]; [right; now left|].
      destruct (IH H) as [Heq|Hin]; [now left | right; now right].
Qed.

End DictFacts.

Section Leaves.
Import ApkBuilder.



Lemma processLeaf_text (item : File) (folder : jsstring) (z : JSZip.files) :
  isBinary item && JS.startsWith (File.content item) #"data:" = false ->
  processLeaf item folder z =
  JSZip.file folder (File.name item) (JSZip.Text (File.content item)) z.
Proof. intros H. unfold processLeaf. now rewrite H. Qed.




Lemma fold_items_complete
    (recurse : jsstring -> jsstring -> JSZip.files -> option JSZip.files)
    (folder : jsstring) (items : list File) :
  (forall item z, In item items ->
     exists z1, processItem recurse folder (Some z) item = Some z1) ->
  forall z, exists z',
    fold_left (processItem recurse folder) items (Some z) = Some z'.
Proof.
  induction items as [|item items IH]; intros H z; [now exists z|].
  destruct (H item z (or_introl eq_refl)) as [z1 Hz1].
  cbn [fold_left]. rewrite Hz1. apply IH.
  intros it z0 Hit. apply H. now right.
Qed.

(** The traversal of a well-founded tree returns, given fuel above the
    rank of the folder it starts from. *)
Lemma processFolder_completes (files : list File) (rank : jsstring -> nat) :
  ranked files rank ->
  forall fuel parentId folder z,
    rank parentId < fuel ->
    exists z', processFolder fuel files parentId folder z = Some z'.
Proof.
  intros Hr. induction fuel as [|fuel IH]; intros parentId folder z Hlt;
    [lia|].
  change (processFolder (S fuel) files parentId folder z) with
    (fold_left (processItem (processFolder fuel files) folder)
       (childrenOf files parentId) (Some z)).
  apply fold_items_complete. intros item z0 Hin.
  unfold childrenOf in Hin. apply filter_In in Hin as [Hin Hp].
  apply eqb_eq in Hp.
  unfold processItem.
  destruct (truthy (File.isDirectory item)) eqn:Hd; [|eauto].
  destruct (JSZip.folder folder (File.name item) z0) as [[nf z1]|]; [|eauto].
  apply IH. pose proof (Hr item Hin Hd). rewrite Hp in *. lia.
Qed.

End Leaves.

(* ================================================================== *)
(** * Standard export: from the entries to the archive *)
(* ================================================================== *)

Section Generation.

(** A generated archive holds, for each file entry, its decoded bytes. *)
Lemma generateAsync_entry (c : JSZip.Codec) (z : JSZip.files)
    (m : Dict.t JSZip.member) :
  JSZip.generateAsync c z = Some m ->
  forall k d, Dict.get k z = Some (JSZip.Entry d) ->
    exists b, JSZip.bytes c d = Some b /\
              Dict.get k m = Some (JSZip.MemberFile b).
Proof.
  revert m. induction z as [|[k0 [|d0]] z IH]; intros m H k d Hget;
    simpl in H, Hget.
  - discriminate.
  - destruct (JSZip.generateAsync c z) as [rest|]; [|discriminate].
    injection H as <-. simpl. destruct (JS.eqb k0 k); [discriminate|].
    now apply IH.
  - destruct (JSZip.bytes c d0) as [b0|] eqn:Eb; [|discriminate].
    destruct (JSZip.generateAsync c z) as [rest|]; [|discriminate].
    injection H as <-. simpl. destruct (JS.eqb k0 k).
    + injection Hget as <-. eauto.
    + now apply IH.
Qed.

(** The folders of a generated archive are the folders of the entries. *)
Lemma generateAsync_dir (c : JSZip.Codec) (z : JSZip.files)
    (m : Dict.t JSZip.member) :
  JSZip.generateAsync c z = Some m ->
  forall k, Dict.get k z = Some JSZip.Dir ->
    Dict.get k m = Some JSZip.MemberDir.
Proof.
  revert m. induction z as [|[k0 [|d0]] z IH]; intros m H k Hget;
    simpl in H, Hget.
  - discriminate.
  - destruct (JSZip.generateAsync c z) as [rest|]; [|discriminate].
    injection H as <-. simpl. destruct (JS.eqb k0 k); [reflexivity|].
    now apply IH.
  - destruct (JSZip.bytes c d0) as [b0|] eqn:Eb; [|discriminate].
    destruct (JSZip.generateAsync c z) as [rest|]; [|discriminate].
    injection H as <-. simpl. destruct (JS.eqb k0 k); [discriminate|].
    now apply IH.
Qed.

(** The generation is rejected exactly when some entry holds a Base64
    text that the decoder does not accept. *)
Lemma generateAsync_rejected (c : JSZip.Codec) (z : JSZip.files) :
  JSZip.generateAsync c z = None <->
  exists k s, In (k, JSZip.Entry (JSZip.Base64 s)) z /\
              JSZip.base64_decode c s = None.
Proof.
  induction z as [|[k0 [|d0]] z IH]; simpl.
  - split; [discriminate | intros (k & s & [] & _)].
  - destruct (JSZip.generateAsync c z) as [rest|].
    + split; [discriminate|]. intros (k & s & [Hin|Hin] & Hs);
        [discriminate|].
      enough (Some rest = None) by discriminate. apply IH. eauto.
    + split; [|reflexivity]. intros _.
      destruct (proj1 IH eq_refl) as (k & s & Hin & Hs). eauto 6.
  - destruct (JSZip.bytes c d0) as [b0|] eqn:Eb.
    + destruct (JSZip.generateAsync c z) as [rest|].
      * split; [discriminate|]. intros (k & s & [Hin|Hin] & Hs).
        -- injection Hin as _ ->. simpl in Eb. congruence.
        -- enough (Some rest = None) by discriminate. apply IH. eauto.
      * split; [|reflexivity]. intros _.
        destruct (proj1 IH eq_refl) as (k & s & Hin & Hs). eauto 6.
    + split; [|reflexivity]. intros _.
      destruct d0 as [s|s]; [discriminate|]. simpl in Eb. eauto 6.
Qed.

End Generation.

Section Frame.
Import ApkBuilder.


Lemma forceTrailingSlash_extends (path : jsstring) :
  exists t, JSZip.forceTrailingSlash path = path ++ t.
Proof.
  unfold JSZip.forceTrailingSlash.
  destruct (rev path) as [|c r]; [now exists #"/"|].
  destruct (N.eqb_spec c 47) as [->|Hc].
  - exists []. now rewrite app_nil_r.
  - exists #"/". destruct c as [|q]; [reflexivity|].
    repeat (destruct q as [q|q|]; try reflexivity); congruence.
Qed.






(** The standard mode in closed form: the traversal, then the
    generation. *)
Lemma exportProject_standard (codec : JSZip.Codec) (fuel : nat)
    (p : Project) :
  exportProject codec fuel (Some p) false =
  match
    processFolder fuel (Project.files p) #"root"
      (safeProjectName (Project.name p) ++ #"/")
      [(safeProjectName (Project.name p) ++ #"/", JSZip.Dir)]
  with
  | Some z' =>
      Some match JSZip.generateAsync codec z' with
           | Some members =>
               Normal {| download := safeProjectName (Project.name p)
                                     ++ #".zip";
                         zip := z';
                         blob := members |}
           | None => Throw ArchiveGenerationFailed
           end
  | None => None
  end.
Proof. unfold exportProject. now rewrite root_folder_created. Qed.

End Frame.

Section LeafEntries.
Import ApkBuilder.






(** A registered piece that the decoder refuses aborts the export: for
    [brokenSite], whose image holds [QUJ], nothing is produced, the text
    file beside it included. *)
Lemma undecodable_piece_aborts :
  JSZip.base64_decode sampleCodec #"QUJ" = None /\
  exportProject sampleCodec 1 (Some brokenSite) false =
  Some (Throw ArchiveGenerationFailed).
Proof. split; reflexivity. Qed.

(** The export of [assetSite] with the malformed image [noComma] put
    inside [assets] is the export of [assetSite]: an archive in which the
    nested image holds the bytes of [ABC]. *)
Lemma malformed_leaf_skipped :
  exportProject sampleCodec 2
    (Some (Project.mk #"1700000000300" #"Assets" type_html 1700000000300
             [bTxt; assetsDir; noComma; logoPng; aTxt] None)) false =
  exportProject sampleCodec 2 (Some assetSite) false /\
  exists d,
    exportProject sampleCodec 2 (Some assetSite) false = Some (Normal d) /\
    Dict.get #"Assets/assets/logo.png" (blob d) =
      Some (JSZip.MemberFile #"ABC").
Proof.
  split; [vm_compute; reflexivity|].
  eexists. split; [vm_compute; reflexivity | reflexivity].
Qed.

End LeafEntries.

(* ================================================================== *)
(** * The storage service: saving, deleting, duplicating *)
(* ================================================================== *)

Section Upsert.
Import Storage.

Variable A : Type.
Variable f : A -> bool.

Lemma placed_cons (x y : A) (l : list A) :
  placed f x (y :: l) = if f y then x :: l else y :: placed f x l.
Proof.
  unfold placed. simpl. destruct (f y); [reflexivity|].
  destruct (findIndex f l); reflexivity.
Qed.

Lemma placed_find (x : A) (l : list A) :
  f x = true -> find f (placed f x l) = Some x.
Proof.
  intros Hx. induction l as [|y l IH].
  - unfold placed. simpl. now rewrite Hx.
  - rewrite placed_cons. destruct (f y) eqn:E; simpl.
    + now rewrite Hx.
    + now rewrite E.
Qed.

Lemma placed_others (x : A) (l : list A) :
  f x = true ->
  filter (fun y => negb (f y)) (placed f x l) = filter (fun y => negb (f y)) l.
Proof.
  intros Hx. induction l as [|y l IH].
  - unfold placed. simpl. now rewrite Hx.
  - rewrite placed_cons. destruct (f y) eqn:E; simpl.
    + now rewrite Hx, E.
    + now rewrite E, IH.
Qed.

Lemma placed_length (x : A) (l : list A) :
  List.length (placed f x l) =
  if existsb f l then List.length l else S (List.length l).
Proof.
  induction l as [|y l IH]; [reflexivity|].
  rewrite placed_cons. simpl. destruct (f y); simpl; [reflexivity|].
  rewrite IH. destruct (existsb f l); reflexivity.
Qed.

Lemma placed_new (x : A) (l : list A) :
  (forall y, In y l -> f y = false) -> placed f x l = l ++ [x].
Proof.
  intros H. induction l as [|y l IH]; [reflexivity|].
  rewrite placed_cons, (H y (or_introl eq_refl)), IH; [reflexivity|].
  intros z Hz. apply H. now right.
Qed.

Lemma placed_first (x old : A) (before after : list A) :
  (forall y, In y before -> f y = false) -> f old = true ->
  placed f x (before ++ old :: after) = before ++ x :: after.
Proof.
  intros H Hold. induction before as [|y before IH]; simpl app.
  - now rewrite placed_cons, Hold.
  - rewrite placed_cons, (H y (or_introl eq_refl)), IH; [reflexivity|].
    intros z Hz. apply H. now right.
Qed.

End Upsert.

Section StorageMore.
Import Storage.

Lemma getProjects_after_save (h : Host) (ps : list Project) (w : World) :
  roundTrips h ps -> getProjects h (saveProjects h ps w) = Normal ps.
Proof.
  intros [Hparse Hne]. unfold getProjects, saveProjects. simpl.
  rewrite get_set_same.
  destruct (JSON_stringify h ps) as [|c d] eqn:E; [congruence|].
  now rewrite Hparse.
Qed.

(** X1. Writing a list of projects and reading it back gives the list, on
    a host whose JSON functions give it back; writing touches no other key
    of the store. *)
Theorem saveProjects_read_back (h : Host) (ps : list Project) (w : World) :
  roundTrips h ps ->
  getProjects h (saveProjects h ps w) = Normal ps /\
  (forall k, k <> STORAGE_KEY ->
     Dict.get k (localStorage (saveProjects h ps w)) =
     Dict.get k (localStorage w)).
Proof.
  intros H. split; [now apply getProjects_after_save|].
  intros k Hk. simpl. now apply get_set_other.
Qed.

Lemma saveProjects_read_back_witness :
  getProjects (tableHost [[demoSite; assetSite]])
    (saveProjects (tableHost [[demoSite; assetSite]])
       [demoSite; assetSite] (tableWorld [])) =
  Normal [demoSite; assetSite].
Proof.
  apply (saveProjects_read_back (tableHost [[demoSite; assetSite]])
           [demoSite; assetSite] (tableWorld [])).
  split; [reflexivity | discriminate].
Defined.

Lemma byId_true (id : jsstring) (p : Project) :
  byId id p = true <-> Project.id p = id.
Proof. apply eqb_eq. Qed.

(** X2. [saveProject(p)] writes the stored list with [p] put in: when a
    stored project has the id of [p], the first such project is replaced
    by [p] at its place and nothing else moves; when none has, [p] is
    added at the end. So [p] is the project found under its id, the
    projects with another id are the ones stored before, in the same
    order, and the list is one longer exactly when no project had the
    id. *)
Theorem saveProject_stores (h : Host) (p : Project) (w : World)
    (projects : list Project) :
  getProjects h w = Normal projects ->
  exists projects',
    saveProject h p w = (Normal tt, saveProjects h projects' w) /\
    (forall before old after,
       projects = before ++ old :: after ->
       Project.id old = Project.id p ->
       (forall q, In q before -> Project.id q <> Project.id p) ->
       projects' = before ++ p :: after) /\
    ((forall q, In q projects -> Project.id q <> Project.id p) ->
     projects' = projects ++ [p]) /\
    find (byId (Project.id p)) projects' = Some p /\
    filter (fun q => negb (byId (Project.id p) q)) projects' =
    filter (fun q => negb (byId (Project.id p) q)) projects /\
    List.length projects' =
      (if existsb (byId (Project.id p)) projects
       then List.length projects else S (List.length projects)) /\
    (roundTrips h projects' ->
     getProjects h (snd (saveProject h p w)) = Normal projects').
Proof.
  intros Hget.
  exists (placed (byId (Project.id p)) p projects).
  assert (Hp : byId (Project.id p) p = true) by now apply byId_true.
  assert (Hsave : saveProject h p w =
            (Normal tt,
             saveProjects h (placed (byId (Project.id p)) p projects) w)).
  { unfold saveProject. rewrite Hget. reflexivity. }
  split; [exact Hsave|].
  split.
  { intros before old after -> Hold Hbefore. apply placed_first.
    - intros q Hq. apply eqb_neq. now apply Hbefore.
    - now apply eqb_eq. }
  split.
  { intros Hnew. apply placed_new. intros q Hq. apply eqb_neq.
    now apply Hnew. }
  split; [now apply placed_find|].
  split; [now apply placed_others|].
  split; [apply placed_length|].
  intros Hrt. rewrite Hsave. simpl snd. now apply getProjects_after_save.
Qed.

(** X2 at a stored list of three: the project in the middle is replaced
    where it stands. *)
Lemma saveProject_stores_witness :
  saveProject (tableHost [[demoSite; assetSite; imageSite]]) assetSiteRenamed
    (tableWorld [demoSite; assetSite; imageSite]) =
  (Normal tt,
   saveProjects (tableHost [[demoSite; assetSite; imageSite]])
     [demoSite; assetSiteRenamed; imageSite]
     (tableWorld [demoSite; assetSite; imageSite])).
Proof.
  destruct (saveProject_stores (tableHost [[demoSite; assetSite; imageSite]])
              assetSiteRenamed (tableWorld [demoSite; assetSite; imageSite])
              [demoSite; assetSite; imageSite] eq_refl)
    as (ps' & Hs & Hplace & _).
  rewrite (Hplace [demoSite] assetSite [imageSite] eq_refl eq_refl) in Hs.
  - exact Hs.
  - intros q [<-|[]]. vm_compute. discriminate.
Defined.

(** X3. After [deleteProject(id)] no stored project has the id, every
    project with another id is still stored, in the same order, and when
    no project had the id the list is the one stored before. *)
Theorem deleteProject_removes (h : Host) (id : jsstring) (w : World)
    (projects : list Project) :
  getProjects h w = Normal projects ->
  exists projects',
    deleteProject h id w = (Normal tt, saveProjects h projects' w) /\
    find (byId id) projects' = None /\
    projects' = filter (fun q => negb (byId id q)) projects /\
    ((forall q, In q projects -> Project.id q <> id) ->
     projects' = projects) /\
    (roundTrips h projects' ->
     getProjects h (snd (deleteProject h id w)) = Normal projects').
Proof.
  intros Hget.
  exists (filter (fun q => negb (byId id q)) projects).
  assert (Hdel : deleteProject h id w =
            (Normal tt,
             saveProjects h (filter (fun q => negb (byId id q)) projects) w)).
  { unfold deleteProject. rewrite Hget. reflexivity. }
  split; [exact Hdel|]. split; [|split; [reflexivity|split]].
  - destruct (find (byId id) (filter (fun q => negb (byId id q)) projects))
      as [q|] eqn:E; [|reflexivity].
    apply find_some in E as [Hin Hq]. apply filter_In in Hin as [_ Hn].
    rewrite Hq in Hn. discriminate.
  - intros Hall. apply filter_fixed. apply Forall_forall. intros q Hq.
    apply negb_true_iff. apply eqb_neq. now apply Hall.
  - intros Hrt. rewrite Hdel. simpl snd. now apply getProjects_after_save.
Qed.

Lemma deleteProject_removes_witness :
  exists projects',
    deleteProject (tableHost [[demoSite; assetSite]; [assetSite]])
      (Project.id demoSite) (tableWorld [demoSite; assetSite]) =
    (Normal tt,
     saveProjects (tableHost [[demoSite; assetSite]; [assetSite]]) projects'
       (tableWorld [demoSite; assetSite])) /\
    projects' = [assetSite].
Proof.
  destruct (deleteProject_removes
              (tableHost [[demoSite; assetSite]; [assetSite]])
              (Project.id demoSite) (tableWorld [demoSite; assetSite])
              [demoSite; assetSite] eq_refl)
    as (ps' & Hd & _ & Hf & _).
  exists ps'. split; [exact Hd|]. rewrite Hf. reflexivity.
Defined.

(** X4. Saving a project whose id is not stored yet and then deleting that
    id gives back the list stored before (on a host whose JSON functions
    give back the two lists written). *)
Theorem save_then_delete (h : Host) (p : Project) (w : World)
    (projects : list Project) :
  getProjects h w = Normal projects ->
  (forall q, In q projects -> Project.id q <> Project.id p) ->
  roundTrips h (projects ++ [p]) ->
  roundTrips h projects ->
  getProjects h
    (snd (deleteProject h (Project.id p) (snd (saveProject h p w)))) =
  Normal projects.
Proof.
  intros Hget Hnew Hrt1 Hrt2.
  assert (Hsave : snd (saveProject h p w) =
                  saveProjects h (projects ++ [p]) w).
  { unfold saveProject. rewrite Hget. simpl snd. f_equal.
    apply (placed_new _ (byId (Project.id p)) p projects).
    intros q Hq. apply eqb_neq. now apply Hnew. }
  rewrite Hsave. unfold deleteProject.
  rewrite (getProjects_after_save h _ w Hrt1). simpl snd.
  rewrite filter_app. simpl.
  replace (JS.eqb (Project.id p) (Project.id p)) with true
    by (symmetry; apply eqb_refl).
  simpl. rewrite app_nil_r.
  rewrite (filter_fixed _ _ projects).
  - unfold getProjects, saveProjects. simpl.
    rewrite get_set_same. destruct Hrt2 as [Hparse Hne].
    destruct (JSON_stringify h projects) as [|c d] eqn:E; [congruence|].
    now rewrite Hparse.
  - apply Forall_forall. intros q Hq. apply negb_true_iff, eqb_neq.
    now apply Hnew.
Qed.

Lemma save_then_delete_witness :
  getProjects (tableHost [[demoSite]; [demoSite; assetSite]])
    (snd (deleteProject (tableHost [[demoSite]; [demoSite; assetSite]])
            (Project.id assetSite)
            (snd (saveProject (tableHost [[demoSite]; [demoSite; assetSite]])
                    assetSite (tableWorld [demoSite]))))) =
  Normal [demoSite].
Proof.
  apply (save_then_delete (tableHost [[demoSite]; [demoSite; assetSite]])
           assetSite (tableWorld [demoSite]) [demoSite]).
  - reflexivity.
  - intros q [<-|[]]. vm_compute. discriminate.
  - split; [reflexivity | discriminate].
  - split; [reflexivity | discriminate].
Defined.

End StorageMore.

Section Duplicate.
Import Storage.

Lemma regenerateIds_same (h : Host) (files : list File) (w : World) :
  Forall2 sameButId (fst (regenerateIds h files w)) files.
Proof.
  revert w. induction files as [|f files IH]; intros w; simpl;
    [constructor|].
  specialize (IH (snd (Math_random h (snd (Date_now h w))))).
  simpl in IH.
  destruct (regenerateIds h files _) as [rest w3]. simpl in *.
  constructor; [|exact IH].
  repeat split.
Qed.

(** X5. For a stored project, [duplicateProject] returns a copy named
    after the original with [ Copy] appended, of the same type and
    thumbnail, whose files are the original's files one by one under new
    ids (same name, content, language, parent id and flags); the copy is
    stored in front of the projects stored before. *)
Theorem duplicateProject_copy (h : Host) (id : jsstring) (w : World)
    (projects : list Project) (original : Project) :
  getProjects h w = Normal projects ->
  find (byId id) projects = Some original ->
  exists newProject w',
    duplicateProject h id w = (Normal (Some newProject), w') /\
    Project.name newProject = Project.name original ++ #" Copy" /\
    Project.type newProject = Project.type original /\
    Project.thumbnail newProject = Project.thumbnail original /\
    Forall2 sameButId (Project.files newProject) (Project.files original) /\
    (roundTrips h (newProject :: projects) ->
     getProjects h w' = Normal (newProject :: projects)).
Proof.
  intros Hget Hfind. unfold duplicateProject. rewrite Hget.
  change (find (fun p => JS.eqb (Project.id p) id) projects)
    with (find (byId id) projects).
  rewrite Hfind. cbv zeta. simpl.
  pose proof (regenerateIds_same h (Project.files original)
                {| localStorage := localStorage w; ticks := S (S (ticks w));
                   draws := draws w |}) as Hsame.
  destruct (regenerateIds h (Project.files original) _) as [files' w3].
  simpl in Hsame.
  eexists. eexists. split; [reflexivity|].
  repeat split; try assumption.
  intros Hrt. now apply getProjects_after_save.
Qed.

Lemma duplicateProject_copy_witness :
  exists newProject w',
    duplicateProject demoHost #"1700000000000" demoWorld =
      (Normal (Some newProject), w') /\
    Project.name newProject = #"My Site! Copy" /\
    Forall2 sameButId (Project.files newProject) (Project.files demoSite).
Proof.
  destruct (duplicateProject_copy demoHost #"1700000000000" demoWorld
              [demoSite] demoSite eq_refl eq_refl)
    as (np & w' & Hd & Hn & _ & _ & Hf & _).
  exists np, w'. repeat split; assumption.
Defined.

End Duplicate.

(* ================================================================== *)
(** * Standard export: flat projects, paths, orphans *)
(* ================================================================== *)

Section FlatExport.
Import ApkBuilder.

Lemma find_app (A : Type) (f : A -> bool) (l1 l2 : list A) :
  find f (l1 ++ l2) =
  match find f l1 with
  | Some x => Some x
  | None => find f l2
  end.
Proof.
  induction l1 as [|x l1 IH]; simpl; [reflexivity|].
  destruct (f x); [reflexivity | exact IH].
Qed.

Lemma childrenOf_root_all (files : list File) :
  Forall plainRootLeaf files -> childrenOf files #"root" = files.
Proof.
  intros H. apply filter_fixed. apply Forall_forall. intros f Hf.
  rewrite Forall_forall in H. destruct (H f Hf) as (Hp & _).
  now apply eqb_eq.
Qed.

Lemma fold_flat
    (recurse : jsstring -> jsstring -> JSZip.files -> option JSZip.files)
    (folder : jsstring) (files : list File) (z : JSZip.files) :
  Forall plainRootLeaf files ->
  fold_left (processItem recurse folder) files (Some z) =
  Some (fold_left
          (fun z f =>
             JSZip.file folder (File.name f) (JSZip.Text (File.content f)) z)
          files z).
Proof.
  intros H. revert z. induction H as [|f files Hf Hfiles IH]; intros z;
    [reflexivity|].
  destruct Hf as (_ & Hleaf & Htext).
  cbn [fold_left]. unfold processItem at 2. rewrite Hleaf.
  rewrite (processLeaf_text f folder z Htext). apply IH.
Qed.

(** Texts only: no Base64 entry comes from such a folder. *)
Lemma fold_flat_text (folder : jsstring) (files : list File)
    (z : JSZip.files) (k s : jsstring) :
  In (k, JSZip.Entry (JSZip.Base64 s))
    (fold_left
       (fun z f =>
          JSZip.file folder (File.name f) (JSZip.Text (File.content f)) z)
       files z) ->
  In (k, JSZip.Entry (JSZip.Base64 s)) z.
Proof.
  revert z. induction files as [|f files IH]; intros z; [trivial|].
  cbn [fold_left]. intros H. apply IH in H. unfold JSZip.file in H.
  apply set_in_entry in H as [[_ H]|H]; [discriminate H | exact H].
Qed.

(** An archive without Base64 entries is always generated. *)
Lemma generateAsync_text (c : JSZip.Codec) (z : JSZip.files) :
  (forall k s, ~ In (k, JSZip.Entry (JSZip.Base64 s)) z) ->
  exists members, JSZip.generateAsync c z = Some members.
Proof.
  intros H. destruct (JSZip.generateAsync c z) as [m|] eqn:E; [eauto|].
  apply generateAsync_rejected in E as (k & s & Hin & _).
  now destruct (H k s).
Qed.

(** In a folder written from leaves only, the entry under a name is the
    one of the last leaf of that name. *)
Lemma flat_lookup (folder : jsstring) (files : list File) (z : JSZip.files)
    (n : jsstring) :
  Dict.get (folder ++ n)
    (fold_left
       (fun z f =>
          JSZip.file folder (File.name f) (JSZip.Text (File.content f)) z)
       files z) =
  match find (byName n) (rev files) with
  | Some f => Some (JSZip.Entry (JSZip.Text (File.content f)))
  | None => Dict.get (folder ++ n) z
  end.
Proof.
  revert z. induction files as [|f files IH]; intros z; [reflexivity|].
  cbn [fold_left rev]. rewrite IH, find_app.
  destruct (find (byName n) (rev files)) as [g|]; [reflexivity|].
  simpl. unfold byName, JSZip.file.
  destruct (JS.eqb (File.name f) n) eqn:E.
  - apply eqb_eq in E. subst n. apply get_set_same.
  - apply get_set_other. intros Heq. apply app_inv_head in Heq.
    apply eqb_neq in E. congruence.
Qed.

Lemma NoDup_names_find (n : jsstring) (files : list File) (f : File) :
  NoDup (map File.name files) -> In f files -> File.name f = n ->
  find (byName n) (rev files) = Some f.
Proof.
  intros Hnd Hin Hn.
  destruct (find (byName n) (rev files)) as [g|] eqn:E.
  - apply find_some in E as [Hg Hgn]. apply in_rev in Hg.
    apply eqb_eq in Hgn. f_equal.
    clear - Hnd Hin Hg Hn Hgn. subst n.
    induction files as [|x files IH]; [contradiction|].
    simpl in Hnd. inversion Hnd as [|? ? Hx Hnd']; subst.
    destruct Hin as [->|Hin], Hg as [->|Hg]; auto.
    + exfalso. apply Hx. rewrite <- Hgn. now apply in_map.
    + exfalso. apply Hx. rewrite Hgn. now apply in_map.
  - exfalso. apply in_rev in Hin.
    pose proof (find_none _ _ E f Hin) as Hf. unfold byName in Hf.
    apply eqb_neq in Hf. contradiction.
Qed.

(** X6. A project made of top-level leaves written as text (no folder, no
    data URL of an image or font) is exported with one step of recursion,
    and the archive holds, under each name, the content of the last file
    of that name in stored order: a file overwrites the files of the same
    name stored before it. When all names differ, every file is found
    under its own name with its own content. *)
Theorem flat_export (codec : JSZip.Codec) (fuel : nat) (p : Project) :
  Forall plainRootLeaf (Project.files p) ->
  exists d,
    exportProject codec (S fuel) (Some p) false = Some (Normal d) /\
    (forall n f,
       find (byName n) (rev (Project.files p)) = Some f ->
       Dict.get ((safeProjectName (Project.name p) ++ #"/") ++ n) (zip d) =
       Some (JSZip.Entry (JSZip.Text (File.content f)))) /\
    (NoDup (map File.name (Project.files p)) ->
     forall f, In f (Project.files p) ->
       Dict.get ((safeProjectName (Project.name p) ++ #"/") ++ File.name f)
         (zip d) =
       Some (JSZip.Entry (JSZip.Text (File.content f)))).
Proof.
  intros Hflat. rewrite exportProject_standard.
  cbn [processFolder]. rewrite (childrenOf_root_all _ Hflat).
  rewrite (fold_flat _ _ _ _ Hflat).
  destruct (generateAsync_text codec
              (fold_left
                 (fun z f =>
                    JSZip.file (safeProjectName (Project.name p) ++ #"/")
                      (File.name f) (JSZip.Text (File.content f)) z)
                 (Project.files p)
                 [(safeProjectName (Project.name p) ++ #"/", JSZip.Dir)]))
    as [members ->].
  { intros k s Hin. apply fold_flat_text in Hin.
    destruct Hin as [Hin|[]]. discriminate Hin. }
  eexists. split; [reflexivity|]. cbn [zip].
  assert (Hlook : forall n f,
    find (byName n) (rev (Project.files p)) = Some f ->
    Dict.get ((safeProjectName (Project.name p) ++ #"/") ++ n)
      (fold_left
         (fun z f =>
            JSZip.file (safeProjectName (Project.name p) ++ #"/")
              (File.name f) (JSZip.Text (File.content f)) z)
         (Project.files p)
         [(safeProjectName (Project.name p) ++ #"/", JSZip.Dir)]) =
    Some (JSZip.Entry (JSZip.Text (File.content f)))).
  { intros n f Hfind. now rewrite flat_lookup, Hfind. }
  split; [exact Hlook|].
  intros Hnd f Hin. apply Hlook. now apply NoDup_names_find.
Qed.

Lemma flat_export_witness :
  exists d,
    exportProject sampleCodec 1 (Some priceStyled) false = Some (Normal d) /\
    Dict.get #"Price list/style.css" (zip d) =
    Some (JSZip.Entry (JSZip.Text priceCss)).
Proof.
  assert (Hflat : Forall plainRootLeaf (Project.files priceStyled)).
  { repeat constructor. }
  destruct (flat_export sampleCodec 0 priceStyled Hflat)
    as (d & Hd & _ & Hall).
  exists d. split; [exact Hd|].
  apply (Hall ltac:(repeat constructor; absent)
           (demoFile #"2" #"style.css" priceCss css #"root" None)).
  right. now left.
Defined.

End FlatExport.

Section Created.
Import ApkBuilder Storage.

Lemma eqb_app_head (r a b : jsstring) :
  JS.eqb (r ++ a) (r ++ b) = JS.eqb a b.
Proof.
  induction r as [|c r IH]; simpl; [reflexivity|].
  now rewrite N.eqb_refl.
Qed.

Lemma eqb_self_app (r b : jsstring) : JS.eqb r (r ++ b) = JS.eqb [] b.
Proof. rewrite <- (app_nil_r r) at 1. apply eqb_app_head. Qed.

(** Three entries of different, non-empty names written into a folder
    that holds nothing yet. *)
Lemma three_entries (root n1 n2 n3 : jsstring) (v1 v2 v3 : JSZip.data) :
  JS.eqb [] n1 = false -> JS.eqb [] n2 = false -> JS.eqb [] n3 = false ->
  JS.eqb n1 n2 = false -> JS.eqb n1 n3 = false -> JS.eqb n2 n3 = false ->
  JSZip.file root n3 v3
    (JSZip.file root n2 v2 (JSZip.file root n1 v1 [(root, JSZip.Dir)])) =
  [ (root, JSZip.Dir); (root ++ n1, JSZip.Entry v1);
    (root ++ n2, JSZip.Entry v2); (root ++ n3, JSZip.Entry v3) ].
Proof.
  intros H1 H2 H3 H12 H13 H23. unfold JSZip.file.
  cbn [Dict.set]. rewrite eqb_self_app, H1.
  cbn [Dict.set]. rewrite eqb_self_app, H2, eqb_app_head, H12.
  cbn [Dict.set]. rewrite eqb_self_app, H3, !eqb_app_head, H13, H23.
  reflexivity.
Qed.

(** The files of a new project are top-level leaves written as text. *)
Lemma createProject_files (h : Host) (name : jsstring) (type : ProjectType)
    (w : World) :
  Forall plainRootLeaf (Project.files (fst (createProject h name type w))).
Proof. destruct type; repeat constructor. Qed.

(** X7. The standard export of a project just created, whatever its name
    and type: the archive holds the top-level folder and, inside it, the
    entry file, [style.css] and [script.js] with their template contents,
    in this order and nothing else. Creating the project stores nothing. *)
Theorem createProject_export (codec : JSZip.Codec) (h : Host)
    (name : jsstring) (type : ProjectType) (w : World) (fuel : nat) :
  let p := fst (createProject h name type w) in
  let root := safeProjectName name ++ #"/" in
  localStorage (snd (createProject h name type w)) = localStorage w /\
  exists d,
    exportProject codec (S fuel) (Some p) false = Some (Normal d) /\
    download d = safeProjectName name ++ #".zip" /\
    zip d =
    [ (root, JSZip.Dir);
      (root ++ match type with
               | type_html => #"index.html"
               | type_php => #"index.php"
               end,
       JSZip.Entry (JSZip.Text
         match type with
         | type_html => indexHtmlContent name
         | type_php => indexPhpContent name
         end));
      (root ++ #"style.css", JSZip.Entry (JSZip.Text styleContent));
      (root ++ #"script.js", JSZip.Entry (JSZip.Text jsContent)) ].
Proof.
  intros p root. split; [reflexivity|].
  pose proof (createProject_files h name type w) as Hflat.
  rewrite exportProject_standard. fold p in Hflat.
  assert (Hname : Project.name p = name) by reflexivity.
  rewrite Hname. fold root.
  cbn [processFolder]. rewrite (childrenOf_root_all _ Hflat).
  rewrite (fold_flat _ _ _ _ Hflat).
  match goal with
  | |- context [JSZip.generateAsync codec ?z] =>
      assert (Hz : z =
        [ (root, JSZip.Dir);
          (root ++ match type with
                   | type_html => #"index.html"
                   | type_php => #"index.php"
                   end,
           JSZip.Entry (JSZip.Text
             match type with
             | type_html => indexHtmlContent name
             | type_php => indexPhpContent name
             end));
          (root ++ #"style.css", JSZip.Entry (JSZip.Text styleContent));
          (root ++ #"script.js", JSZip.Entry (JSZip.Text jsContent)) ])
        by (unfold p; destruct type; apply three_entries; reflexivity)
  end.
  rewrite Hz. cbn [JSZip.generateAsync JSZip.bytes].
  eexists. split; [reflexivity|]. split; reflexivity.
Qed.

(** X8. The single-file export of a project just created: an HTML project
    is always accepted, and the merge starts from its entry page; a PHP
    project is always refused with [MissingEntryPoint], its entry file
    being [index.php]. *)
Theorem createProject_single_file (codec : JSZip.Codec) (h : Host)
    (name : jsstring) (type : ProjectType) (w : World) (fuel : nat) :
  let p := fst (createProject h name type w) in
  match type with
  | type_html =>
      exists d,
        exportProject codec fuel (Some p) true = Some (Normal d) /\
        zip d =
        [ (safeProjectName name ++ #"/", JSZip.Dir);
          ((safeProjectName name ++ #"/") ++ #"index.html",
           JSZip.Entry (JSZip.Text
             (mergeJs (Project.files p)
                (mergeCss (Project.files p) (indexHtmlContent name))))) ]
  | type_php =>
      exportProject codec fuel (Some p) true =
      Some (Throw MissingEntryPoint)
  end.
Proof.
  intros p. unfold p. destruct type; rewrite exportProject_single.
  - eexists. split; reflexivity.
  - reflexivity.
Qed.

End Created.

Section Paths.
Import ApkBuilder.

Lemma file_under (top folder name : jsstring) (d : JSZip.data)
    (z : JSZip.files) :
  (exists t, folder = top ++ t) -> allUnder top z ->
  allUnder top (JSZip.file folder name d z).
Proof.
  intros [t ->] Hz k v Hin. unfold JSZip.file in Hin.
  apply set_in in Hin as [->|Hin]; [|now apply (Hz k v)].
  exists (t ++ name). now rewrite app_assoc.
Qed.

Lemma folder_under (top folder name nf : jsstring) (z z' : JSZip.files) :
  (exists t, folder = top ++ t) -> allUnder top z ->
  JSZip.folder folder name z = Some (nf, z') ->
  (exists t, nf = top ++ t) /\ allUnder top z'.
Proof.
  intros [t ->] Hz. unfold JSZip.folder.
  destruct name as [|c name].
  - intros [= <- <-]. split; [now exists t | exact Hz].
  - destruct (forceTrailingSlash_extends ((top ++ t) ++ c :: name))
      as [u Hu].
    rewrite Hu.
    assert (Hnf : exists t0, ((top ++ t) ++ c :: name) ++ u = top ++ t0).
    { exists ((t ++ c :: name) ++ u). now rewrite !app_assoc. }
    destruct (Dict.get _ z); intros [= <- <-]; (split; [exact Hnf|]).
    + exact Hz.
    + intros k v Hin. apply set_in in Hin as [->|Hin];
        [exact Hnf | now apply (Hz k v)].
Qed.

Lemma processLeaf_under (top folder : jsstring) (item : File)
    (z : JSZip.files) :
  (exists t, folder = top ++ t) -> allUnder top z ->
  allUnder top (processLeaf item folder z).
Proof.
  intros Hf Hz. unfold processLeaf.
  destruct (isBinary item && JS.startsWith (File.content item) #"data:").
  - destruct (1 <? _)%nat; [now apply file_under | exact Hz].
  - now apply file_under.
Qed.

Lemma fold_items_under (top folder : jsstring)
    (recurse : jsstring -> jsstring -> JSZip.files -> option JSZip.files)
    (items : list File) :
  (forall pid f z z', (exists t, f = top ++ t) -> allUnder top z ->
     recurse pid f z = Some z' -> allUnder top z') ->
  (exists t, folder = top ++ t) ->
  forall z z', allUnder top z ->
    fold_left (processItem recurse folder) items (Some z) = Some z' ->
    allUnder top z'.
Proof.
  intros Hrec Hf. induction items as [|item items IH]; intros z z' Hz.
  - intros [= <-]. exact Hz.
  - cbn [fold_left].
    destruct (processItem recurse folder (Some z) item) as [z1|] eqn:E.
    + apply IH. unfold processItem in E.
      destruct (truthy (File.isDirectory item)).
      * destruct (JSZip.folder folder (File.name item) z) as [[nf z0]|] eqn:Ef.
        -- destruct (folder_under top folder (File.name item) nf z z0 Hf Hz Ef)
             as [Hnf Hz0].
           exact (Hrec _ _ _ _ Hnf Hz0 E).
        -- injection E as <-. exact Hz.
      * injection E as <-. now apply processLeaf_under.
    + intros H. exfalso. clear - H.
      induction items as [|i items IHi]; [discriminate|]. now apply IHi.
Qed.

Lemma processFolder_under (top : jsstring) (files : list File) :
  forall fuel parentId folder z z',
    (exists t, folder = top ++ t) -> allUnder top z ->
    processFolder fuel files parentId folder z = Some z' ->
    allUnder top z'.
Proof.
  induction fuel as [|fuel IH]; intros parentId folder z z' Hf Hz;
    [discriminate|].
  cbn [processFolder]. intros H.
  eapply (fold_items_under top folder (processFolder fuel files));
    [intros pid f z0 z1; apply IH | exact Hf | exact Hz | exact H].
Qed.

(** X9. In both modes, every entry of the archive handed to the user lies
    inside the top-level folder named after the sanitised project name:
    its path begins with that name and a slash. *)
Theorem archive_under_root (codec : JSZip.Codec) (fuel : nat) (p : Project)
    (single : bool) (d : Download) :
  exportProject codec fuel (Some p) single = Some (Normal d) ->
  forall path entry, In (path, entry) (zip d) ->
    exists rest, path = (safeProjectName (Project.name p) ++ #"/") ++ rest.
Proof.
  intros H. destruct single.
  - rewrite exportProject_single in H.
    destruct (findByName #"index.html" (Project.files p)); [|discriminate].
    injection H as <-. cbn [zip]. intros path entry [[= <- _]|[[= <- _]|[]]].
    + exists []. now rewrite app_nil_r.
    + now exists #"index.html".
  - rewrite exportProject_standard in H.
    destruct (processFolder fuel (Project.files p) #"root" _ _) as [z'|] eqn:E;
      [|discriminate].
    destruct (JSZip.generateAsync codec z') as [members|]; [|discriminate].
    injection H as <-. cbn [zip].
    eapply (processFolder_under (safeProjectName (Project.name p) ++ #"/")
              (Project.files p) fuel); [| |exact E].
    + exists []. now rewrite app_nil_r.
    + intros k v [[= <- _]|[]]. exists []. now rewrite app_nil_r.
Qed.

Lemma archive_under_root_witness :
  exists rest, #"Assets/assets/logo.png" = #"Assets/" ++ rest.
Proof.
  apply (archive_under_root sampleCodec 2 assetSite false
           {| download := #"Assets.zip";
              zip := [ (#"Assets/", JSZip.Dir);
                       (#"Assets/b.txt", JSZip.Entry (JSZip.Text #"B"));
                       (#"Assets/assets/", JSZip.Dir);
                       (#"Assets/assets/logo.png",
                        JSZip.Entry (JSZip.Base64 #"QUJD"));
                       (#"Assets/a.txt", JSZip.Entry (JSZip.Text #"A")) ];
              blob := [ (#"Assets/", JSZip.MemberDir);
                        (#"Assets/b.txt", JSZip.MemberFile #"B");
                        (#"Assets/assets/", JSZip.MemberDir);
                        (#"Assets/assets/logo.png", JSZip.MemberFile #"ABC");
                        (#"Assets/a.txt", JSZip.MemberFile #"A") ] |}
           eq_refl #"Assets/assets/logo.png"
           (JSZip.Entry (JSZip.Base64 #"QUJD"))).
  cbn [zip]. do 3 right. now left.
Defined.

End Paths.

Section Orphans.
Import ApkBuilder Storage.

Lemma fold_left_ext_in (A B : Type) (f g : A -> B -> A) (l : list B) (a : A) :
  (forall x y, In y l -> f x y = g x y) -> fold_left f l a = fold_left g l a.
Proof.
  revert a. induction l as [|y l IH]; intros a H; simpl; [reflexivity|].
  rewrite (H a y (or_introl eq_refl)). apply IH.
  intros x z Hz. apply H. now right.
Qed.

Lemma processFolder_orphan (item : File) (before after : list File) :
  (forall d, In d (before ++ after) ->
     truthy (File.isDirectory d) = true ->
     File.id d <> File.parentId item) ->
  forall fuel parentId folder z,
    parentId <> File.parentId item ->
    processFolder fuel (before ++ item :: after) parentId folder z =
    processFolder fuel (before ++ after) parentId folder z.
Proof.
  intros Horphan. induction fuel as [|fuel IH];
    intros parentId folder z Hpid; [reflexivity|].
  cbn [processFolder].
  assert (Hitems : childrenOf (before ++ item :: after) parentId =
                   childrenOf (before ++ after) parentId).
  { unfold childrenOf. rewrite !filter_app. simpl filter.
    now rewrite (proj2 (eqb_neq (File.parentId item) parentId))
      by congruence. }
  rewrite Hitems. apply fold_left_ext_in.
  intros acc d Hd. unfold childrenOf in Hd. apply filter_In in Hd as [Hd _].
  unfold processItem. destruct acc as [z0|]; [|reflexivity].
  destruct (truthy (File.isDirectory d)) eqn:Hdir; [|reflexivity].
  destruct (JSZip.folder folder (File.name d) z0) as [[nf z1]|];
    [|reflexivity].
  apply IH. now apply Horphan.
Qed.

(** X10. A file whose [parentId] is neither ['root'] nor the id of a
    folder of the project is left out of the standard export without any
    error: the export is the one of the project without that file. *)
Theorem orphan_not_exported (codec : JSZip.Codec) (fuel : nat) (p : Project)
    (item : File) (before after : list File) :
  Project.files p = before ++ item :: after ->
  File.parentId item <> #"root" ->
  (forall d, In d (before ++ after) ->
     truthy (File.isDirectory d) = true ->
     File.id d <> File.parentId item) ->
  exportProject codec fuel (Some p) false =
  exportProject codec fuel
    (Some {| Project.id := Project.id p; Project.name := Project.name p;
             Project.type := Project.type p;
             Project.lastModified := Project.lastModified p;
             Project.files := before ++ after;
             Project.thumbnail := Project.thumbnail p |}) false.
Proof.
  intros Hfiles Hroot Horphan. unfold exportProject.
  cbn [Project.name Project.files]. rewrite Hfiles.
  destruct (JSZip.folder [] (safeProjectName (Project.name p)) [])
    as [[rootFolder z]|]; [|reflexivity].
  rewrite (processFolder_orphan item before after Horphan); congruence.
Qed.

(** X10 at a project with a file whose parent does not exist. *)
Lemma orphan_not_exported_witness :
  exportProject sampleCodec 2
    (Some (Project.mk #"7" #"Lost" type_html 7
             [demoPages;
              demoFile #"40" #"lost.txt" #"?" html #"nowhere" None;
              aTxt] None)) false =
  exportProject sampleCodec 2
    (Some (Project.mk #"7" #"Lost" type_html 7 [demoPages; aTxt] None))
    false.
Proof.
  apply (orphan_not_exported sampleCodec 2
           (Project.mk #"7" #"Lost" type_html 7
              [demoPages;
               demoFile #"40" #"lost.txt" #"?" html #"nowhere" None;
               aTxt] None)
           (demoFile #"40" #"lost.txt" #"?" html #"nowhere" None)
           [demoPages] [aTxt]).
  - reflexivity.
  - vm_compute. discriminate.
  - intros d [<-|[<-|[]]] Hd; vm_compute; discriminate.
Defined.

(** X11. In a duplicated project whose new ids are none of the parent ids
    of the original, a file that lay inside a folder is left out of the
    standard export of the copy: the copy's folders have new ids, the
    copied file still names the original folder as its parent. *)
Theorem duplicate_export_drops_nested (h : Host) (w w' : World)
    (id : jsstring) (projects : list Project) (original newProject : Project)
    (before after : list File) (nested : File) :
  getProjects h w = Normal projects ->
  find (fun p => JS.eqb (Project.id p) id) projects = Some original ->
  duplicateProject h id w = (Normal (Some newProject), w') ->
  (forall g, In g (Project.files newProject) ->
     ~ In (File.id g) (map File.parentId (Project.files original))) ->
  Project.files newProject = before ++ nested :: after ->
  File.parentId nested <> #"root" ->
  forall fuel folder z,
    processFolder fuel (Project.files newProject) #"root" folder z =
    processFolder fuel (before ++ after) #"root" folder z.
Proof.
  intros Hget Hfind Hdup Hfresh Hfiles Hnested fuel folder z.
  pose proof (duplicateProject_files h w w' id projects original newProject
                Hget Hfind Hdup) as Hmap.
  rewrite Hfiles. apply processFolder_orphan; [|congruence].
  intros d Hd _ Heq.
  apply (Hfresh d).
  - rewrite Hfiles. apply in_app_iff. apply in_app_iff in Hd.
    destruct Hd as [Hd|Hd]; [now left | right; now right].
  - rewrite <- Hmap, Hfiles, Heq. apply in_map.
    apply in_app_iff. right. now left.
Qed.

Lemma duplicate_export_drops_nested_witness :
  exists newProject before nested after,
    fst (duplicateProject demoHost #"1700000000000" demoWorld) =
      Normal (Some newProject) /\
    Project.files newProject = before ++ nested :: after /\
    File.name nested = #"index.html" /\
    processFolder 2 (Project.files newProject) #"root" #"Copy/" [] =
    processFolder 2 (before ++ after) #"root" #"Copy/" [].
Proof.
  destruct (duplicateProject demoHost #"1700000000000" demoWorld)
    as [r w'] eqn:E.
  assert (Hr : exists np, r = Normal (Some np) /\
            exists b n a, Project.files np = b ++ n :: a /\
              List.length b = 1 /\ File.name n = #"index.html" /\
              File.parentId n = #"10" /\
              forall g, In g (Project.files np) ->
                ~ In (File.id g)
                    (map File.parentId (Project.files demoSite))).
  { vm_compute in E. injection E as <- _.
    eexists. split; [reflexivity|].
    eexists [_], _, _. split; [reflexivity|].
    repeat split.
    intros g Hg. repeat destruct Hg as [<-|Hg]; try contradiction; absent. }
  destruct Hr as (np & -> & b & n & a & Hfiles & _ & Hname & Hpar & Hfresh).
  exists np, b, n, a. split; [reflexivity|]. split; [exact Hfiles|].
  split; [exact Hname|].
  apply (duplicate_export_drops_nested demoHost demoWorld w'
           #"1700000000000" [demoSite] demoSite np b a n); auto.
  rewrite Hpar. vm_compute. discriminate.
Defined.

End Orphans.

Section MergeEdges.
Import ApkBuilder.

(** X12. When the project has [index.html] but no [style.css], no
    [script.js] and no [main.js], the single-file export holds the content
    of [index.html] as it is: nothing is injected and nothing removed. *)
Theorem single_file_without_assets (codec : JSZip.Codec) (fuel : nat)
    (p : Project) (indexFile : File) :
  findByName #"index.html" (Project.files p) = Some indexFile ->
  (forall f, In f (Project.files p) ->
     File.name f <> #"style.css" /\ File.name f <> #"script.js" /\
     File.name f <> #"main.js") ->
  exists d,
    exportProject codec fuel (Some p) true = Some (Normal d) /\
    zip d =
    [ (safeProjectName (Project.name p) ++ #"/", JSZip.Dir);
      ((safeProjectName (Project.name p) ++ #"/") ++ #"index.html",
       JSZip.Entry (JSZip.Text (File.content indexFile))) ].
Proof.
  intros Hindex Hnone. rewrite exportProject_single, Hindex.
  eexists. split; [reflexivity|]. cbv zeta.
  assert (Hcss : findByName #"style.css" (Project.files p) = None)
    by (apply findByName_none; intros f Hf; apply (Hnone f Hf)).
  assert (Hs : findByName #"script.js" (Project.files p) = None)
    by (apply findByName_none; intros f Hf; apply (Hnone f Hf)).
  assert (Hm : findByName #"main.js" (Project.files p) = None)
    by (apply findByName_none; intros f Hf; apply (Hnone f Hf)).
  unfold mergeJs, mergeCss, findJsFile. now rewrite Hcss, Hs, Hm.
Qed.

Lemma single_file_without_assets_witness :
  exists d,
    exportProject sampleCodec 0
      (Some (Project.mk #"8" #"Bare" type_html 8 [demoPages; demoIndex] None))
      true = Some (Normal d) /\
    zip d =
    [ (#"Bare/", JSZip.Dir);
      (#"Bare/index.html", JSZip.Entry (JSZip.Text demoIndexHtml)) ].
Proof.
  apply (single_file_without_assets sampleCodec 0
           (Project.mk #"8" #"Bare" type_html 8 [demoPages; demoIndex] None)
           demoIndex eq_refl).
  intros f [<-|[<-|[]]]; repeat split; vm_compute; discriminate.
Defined.

(** X13. The sanitised project name, which names the top-level folder and
    the downloaded file, is never empty, holds only letters, digits,
    hyphens, underscores and white space (so no slash, backslash, dot or
    colon), and has no white space at either end. *)
Theorem safeProjectName_shape (name : jsstring) :
  safeProjectName name <> [] /\
  Forall (fun c => allowedChar c = true) (safeProjectName name) /\
  JS.trim (safeProjectName name) = safeProjectName name /\
  (forall c, In c [47; 92; 46; 58]%N -> ~ In c (safeProjectName name)).
Proof.
  split; [apply safeProjectName_nonempty|].
  split; [apply safeProjectName_allowed|].
  split.
  - unfold safeProjectName.
    destruct (JS.trim (filter allowedChar name)) as [|c t] eqn:E;
      [reflexivity|].
    rewrite <- E. apply trim_idem.
  - intros c Hc Hin.
    pose proof (safeProjectName_allowed name) as Hall.
    rewrite Forall_forall in Hall. specialize (Hall c Hin).
    repeat destruct Hc as [<-|Hc]; try discriminate Hall. exact Hc.
Qed.

Lemma run_Lit (l s : jsstring) (k : jsstring -> option jsstring) :
  Regex.run (Regex.Lit l) s k =
  match JS.matchAt JS.sameCI l s with
  | Some (_, rest) => k rest
  | None => None
  end.
Proof.
  revert s. induction l as [|c l IH]; intros s; [reflexivity|].
  cbn [Regex.Lit Regex.run JS.matchAt].
  destruct s as [|x s]; [reflexivity|].
  destruct (JS.sameCI c x); [|reflexivity].
  rewrite IH. destruct (JS.matchAt JS.sameCI l s) as [[m rest]|]; reflexivity.
Qed.

Lemma removeAll_no_opener (opener : jsstring) (r : Regex.re) (s : jsstring) :
  JS.search JS.sameCI opener s = None ->
  Regex.removeAll (Regex.Seq (Regex.Lit opener) r) s = s.
Proof.
  unfold Regex.removeAll. induction s as [|c s IH]; intros H; [reflexivity|].
  cbn [JS.search] in H.
  destruct (JS.matchAt JS.sameCI opener (c :: s)) as [[m rest]|] eqn:E;
    [discriminate|].
  destruct (JS.search JS.sameCI opener s) as [[[pre m] rest]|] eqn:Es;
    [discriminate|].
  cbn [Regex.removeFrom Regex.run]. rewrite run_Lit, E.
  f_equal. now apply IH.
Qed.

(** X14. The two removals of the merge leave a document alone when it has
    no tag to remove: without [<link] in any letter case the link removal
    returns the document as it is, and without [<script] in any letter
    case so does the script removal. *)
Theorem removal_without_tags (doc name : jsstring) :
  (JS.search JS.sameCI #"<link" doc = None ->
   Regex.removeAll linkTagRegex doc = doc) /\
  (JS.search JS.sameCI #"<script" doc = None ->
   Regex.removeAll (scriptTagRegex name) doc = doc).
Proof.
  split; intros H.
  - exact (removeAll_no_opener #"<link" _ doc H).
  - exact (removeAll_no_opener #"<script" _ doc H).
Qed.

Lemma removal_without_tags_witness :
  Regex.removeAll linkTagRegex #"<html><body>Hello</body></html>" =
  #"<html><body>Hello</body></html>".
Proof.
  exact (proj1 (removal_without_tags #"<html><body>Hello</body></html>"
                  #"script.js") eq_refl).
Defined.

End MergeEdges.

(* ================================================================== *)
(** * The file explorer: handlers and tree *)
(* ================================================================== *)

Section Handlers.
Import FileExplorer.

Lemma trimEnd_blank (s : jsstring) :
  Forall (fun c => JS.isSpace c = true) s -> JS.trimEnd s = [].
Proof.
  induction 1 as [|c s Hc Hs IH]; simpl; [reflexivity|].
  now rewrite IH, Hc.
Qed.

Lemma trim_blank (s : jsstring) :
  Forall (fun c => JS.isSpace c = true) s -> JS.trim s = [].
Proof. intros H. unfold JS.trim. now rewrite trimEnd_blank. Qed.

Lemma nonEmpty_true (s : jsstring) : nonEmpty s = true <-> s <> [].
Proof. destruct s; simpl; split; congruence. Qed.

(** X15. [handleCreateSubmit] asks for a new item only under a name that
    is not empty and has no white space at either end: the name typed,
    trimmed. The item goes into the active folder, with empty content, as
    a folder exactly when the form was the folder form; the form is then
    closed and the active folder shown expanded. With a name of white
    space only, or no form open, nothing is asked and the state stays. *)
Theorem handleCreateSubmit_names (st : State) :
  (forall call st', handleCreateSubmit st = (Some call, st') ->
     exists name isDir,
       call = onAddFile name [] (activeFolderId st) isDir /\
       name = JS.trim (newItemName st) /\
       name <> [] /\ JS.trim name = name /\
       (isDir = true <-> addingType st = Some addingFolder) /\
       addingType st' = None /\ newItemName st' = [] /\
       Dict.get (activeFolderId st) (expandedFolders st') = Some true) /\
  (addingType st = None \/
   Forall (fun c => JS.isSpace c = true) (newItemName st) ->
   handleCreateSubmit st = (None, st)).
Proof.
  unfold handleCreateSubmit. split.
  - intros call st'.
    destruct (addingType st) as [kind|] eqn:Ek; [|discriminate].
    destruct (nonEmpty (JS.trim (newItemName st))) eqn:En; [|discriminate].
    intros [= <- <-]. eexists. eexists. split; [reflexivity|].
    split; [reflexivity|].
    split; [now apply nonEmpty_true|].
    split; [apply trim_idem|].
    split; [destruct kind; split; congruence|].
    split; [reflexivity|]. split; [reflexivity|].
    cbn [expandedFolders]. apply get_set_same.
  - intros [Hk|Hblank].
    + now rewrite Hk.
    + rewrite (trim_blank _ Hblank). destruct (addingType st); reflexivity.
Qed.

(** X16. [submitRename] asks for a rename only when an item is being
    renamed and the name typed is not blank; the name passed is the name
    typed, trimmed, so it is not empty and has no white space at either
    end, and the form is then closed. With a blank name nothing is asked
    and the state stays. *)
Theorem submitRename_names (st : State) :
  (forall call st', submitRename st = (Some call, st') ->
     exists id name,
       call = onRenameFile id name /\
       editingId st = Some id /\ id <> [] /\
       name = JS.trim (editName st) /\
       name <> [] /\ JS.trim name = name /\
       editingId st' = None /\
       expandedFolders st' = expandedFolders st) /\
  (Forall (fun c => JS.isSpace c = true) (editName st) ->
   submitRename st = (None, st)).
Proof.
  unfold submitRename. split.
  - intros call st'.
    destruct (editingId st) as [id|] eqn:Ee; [|discriminate].
    destruct (truthyString (Some id)) eqn:Et; [|discriminate].
    destruct (nonEmpty (JS.trim (editName st))) eqn:En; [|discriminate].
    intros [= <- <-]. exists id, (JS.trim (editName st)).
    repeat split; try reflexivity.
    + destruct id; [discriminate | discriminate].
    + now apply nonEmpty_true.
    + apply trim_idem.
  - intros Hblank. rewrite (trim_blank _ Hblank).
    destruct (editingId st); [|reflexivity].
    now rewrite andb_false_r.
Qed.

(** X17. [toggleFolder] flips the expanded state of the folder given and
    of no other folder, and toggling the same folder twice gives every
    folder the state it had. *)
Theorem toggleFolder_twice (folderId : jsstring) (st : State) :
  (forall k,
     truthy (Dict.get k (expandedFolders (toggleFolder folderId st))) =
     if JS.eqb k folderId
     then negb (truthy (Dict.get k (expandedFolders st)))
     else truthy (Dict.get k (expandedFolders st))) /\
  (forall k,
     truthy (Dict.get k
       (expandedFolders (toggleFolder folderId (toggleFolder folderId st)))) =
     truthy (Dict.get k (expandedFolders st))).
Proof.
  assert (H1 : forall s k,
    truthy (Dict.get k (expandedFolders (toggleFolder folderId s))) =
    if JS.eqb k folderId
    then negb (truthy (Dict.get k (expandedFolders s)))
    else truthy (Dict.get k (expandedFolders s))).
  { intros s k. cbn [toggleFolder expandedFolders].
    destruct (JS.eqb k folderId) eqn:E.
    - apply eqb_eq in E. subst k. rewrite get_set_same.
      destruct (truthy (Dict.get folderId (expandedFolders s))); reflexivity.
    - apply eqb_neq in E. now rewrite get_set_other. }
  split; [apply H1|].
  intros k. rewrite H1, H1.
  destruct (JS.eqb k folderId); [apply negb_involutive | reflexivity].
Qed.

End Handlers.

Section HandlerSamples.
Import FileExplorer.

Lemma handleCreateSubmit_names_witness :
  exists st',
    handleCreateSubmit typingFolder =
      (Some (onAddFile #"images" [] #"root" true), st') /\
    addingType st' = None /\
    Dict.get #"root" (expandedFolders st') = Some true.
Proof.
  destruct (handleCreateSubmit typingFolder) as [call st'] eqn:E.
  destruct call as [call|]; [|vm_compute in E; discriminate].
  destruct (proj1 (handleCreateSubmit_names typingFolder) call st' E)
    as (name & isDir & -> & -> & _ & _ & Hdir & Hk & _ & Hx).
  exists st'. split; [|split; [exact Hk | exact Hx]].
  destruct isDir; [reflexivity | discriminate (proj2 Hdir eq_refl)].
Defined.

Lemma submitRename_names_witness :
  exists st',
    submitRename renamingIndex = (Some (onRenameFile #"11" #"home.html"), st') /\
    editingId st' = None.
Proof.
  destruct (submitRename renamingIndex) as [call st'] eqn:E.
  destruct call as [call|]; [|vm_compute in E; discriminate].
  destruct (proj1 (submitRename_names renamingIndex) call st' E)
    as (id & name & -> & [= <-] & _ & -> & _ & _ & He & _).
  exists st'. split; [reflexivity | exact He].
Defined.

End HandlerSamples.

Section TreeRows.
Import FileExplorer.

Variable localeCompare : jsstring -> jsstring -> Z.

Lemma collect_in (A : Type) (parts : list (option (list A)))
    (rows : list A) (r : A) :
  collect parts = Some rows -> In r rows ->
  exists part, In (Some part) parts /\ In r part.
Proof.
  revert rows. induction parts as [|[part|] parts IH]; intros rows; simpl.
  - intros [= <-] [].
  - destruct (collect parts) as [rest|]; [|discriminate].
    intros [= <-] Hin. apply in_app_iff in Hin as [Hin|Hin].
    + exists part. split; [now left | exact Hin].
    + destruct (IH rest eq_refl Hin) as (q & Hq & Hr).
      exists q. split; [now right | exact Hr].
  - discriminate.
Qed.

Lemma renderTree_items_in (files : list File) (parentId : jsstring)
    (f : File) :
  In f (renderTree_items localeCompare files parentId) <->
  In f files /\ File.parentId f = parentId.
Proof.
  unfold renderTree_items. split.
  - intros H. apply (Permutation_in _ (sort_perm _ _)) in H.
    unfold childrenOf in H. apply filter_In in H as [H1 H2].
    split; [exact H1 | now apply eqb_eq].
  - intros [H1 H2].
    apply (Permutation_in _ (Permutation_sym (sort_perm _ _))).
    unfold childrenOf. apply filter_In. split; [exact H1 | now apply eqb_eq].
Qed.

(** Where the rows of [renderTree] come from. *)
Lemma renderTree_row_origin (files : list File) (st : State) :
  forall fuel parentId depth rows,
    renderTree localeCompare fuel files st parentId depth = Some rows ->
    forall r, In r rows ->
      In (rowFile r) files /\
      ((File.parentId (rowFile r) = parentId /\ rowDepth r = depth) \/
       (exists g, In g files /\ truthy (File.isDirectory g) = true /\
          truthy (Dict.get (File.id g) (expandedFolders st)) = true /\
          File.parentId (rowFile r) = File.id g /\ depth < rowDepth r)).
Proof.
  induction fuel as [|fuel IH]; intros parentId depth rows; [discriminate|].
  cbn [renderTree]. intros Hrows r Hr.
  destruct (collect_in _ _ _ r Hrows Hr) as (part & Hpart & Hin).
  apply in_map_iff in Hpart as (item & Hitem & Hi).
  apply renderTree_items_in in Hi as [Hfiles Hparent].
  unfold renderItem in Hitem.
  destruct (truthy (File.isDirectory item)) eqn:Hd;
    [destruct (truthy (Dict.get (File.id item) (expandedFolders st))) eqn:Hx|];
    cbn [andb] in Hitem.
  - destruct (renderTree localeCompare fuel files st (File.id item) (S depth))
      as [sub|] eqn:Hsub; [|discriminate].
    injection Hitem as <-. destruct Hin as [<-|Hin].
    + split; [exact Hfiles|]. left. now split.
    + destruct (IH _ _ _ Hsub r Hin) as [Hrf [[Hp Hdp]|(g & Hg)]].
      * split; [exact Hrf|]. right. exists item.
        repeat split; auto. lia.
      * split; [exact Hrf|]. right. exists g.
        destruct Hg as (? & ? & ? & ? & ?). repeat split; auto. lia.
  - injection Hitem as <-. destruct Hin as [<-|[]].
    split; [exact Hfiles|]. left. now split.
  - injection Hitem as <-. destruct Hin as [<-|[]].
    split; [exact Hfiles|]. left. now split.
Qed.

(** X18. Every row [renderTree] renders shows a file of the project, and
    shows it either at the depth asked for, as a child of the parent
    asked for, or deeper, as a child of a folder of the project that is
    shown expanded. A file whose parent is neither is not rendered. *)
Theorem renderTree_rows (files : list File) (st : State) (fuel : nat)
    (parentId : jsstring) (depth : nat) (rows : list Row) (r : Row) :
  renderTree localeCompare fuel files st parentId depth = Some rows ->
  In r rows ->
  In (rowFile r) files /\
  ((File.parentId (rowFile r) = parentId /\ rowDepth r = depth) \/
   (exists g, In g files /\ truthy (File.isDirectory g) = true /\
      truthy (Dict.get (File.id g) (expandedFolders st)) = true /\
      File.parentId (rowFile r) = File.id g /\ depth < rowDepth r)).
Proof.
  intros Hrows Hr.
  exact (renderTree_row_origin files st fuel parentId depth rows Hrows r Hr).
Qed.

Lemma collect_singletons (A B : Type) (f : A -> B) (l : list A) :
  collect (map (fun x => Some [f x]) l) = Some (map f l).
Proof.
  induction l as [|x l IH]; simpl; [reflexivity|]. now rewrite IH.
Qed.

(** X19. With every folder of the project collapsed, as when the explorer
    starts, [renderTree] renders the children of the parent asked for and
    nothing else: one row each, in the order of the child listing, all at
    the depth asked for. *)
Theorem renderTree_collapsed (files : list File) (st : State) (fuel : nat)
    (parentId : jsstring) (depth : nat) :
  (forall f, In f files -> truthy (File.isDirectory f) = true ->
     truthy (Dict.get (File.id f) (expandedFolders st)) = false) ->
  exists rows,
    renderTree localeCompare (S fuel) files st parentId depth = Some rows /\
    map rowFile rows = renderTree_items localeCompare files parentId /\
    Forall (fun r => rowDepth r = depth) rows.
Proof.
  intros Hc. cbn [renderTree].
  set (mk := fun file =>
    {| rowFile := file; rowDepth := depth;
       rowRenaming := match editingId st with
                      | Some id => JS.eqb id (File.id file)
                      | None => false
                      end |}).
  assert (Hmap :
    map (renderItem (renderTree localeCompare fuel files st) st depth)
      (renderTree_items localeCompare files parentId) =
    map (fun x => Some [mk x]) (renderTree_items localeCompare files parentId)).
  { apply map_ext_in. intros f Hf.
    apply renderTree_items_in in Hf as [Hf _]. unfold renderItem.
    destruct (truthy (File.isDirectory f)) eqn:Hd; [|reflexivity].
    now rewrite (Hc f Hf Hd). }
  rewrite Hmap, collect_singletons.
  eexists. split; [reflexivity|]. split.
  - rewrite map_map. apply map_id.
  - apply Forall_forall. intros r Hr. apply in_map_iff in Hr as (f & <- & _).
    reflexivity.
Qed.

End TreeRows.

Section TreeMore.
Import FileExplorer Storage.

Variable localeCompare : jsstring -> jsstring -> Z.

Lemma collect_total (A B : Type) (g : A -> option (list B)) (l : list A) :
  (forall x, In x l -> exists part, g x = Some part) ->
  exists rows,
    collect (map g l) = Some rows /\
    forall x part, In x l -> g x = Some part -> incl part rows.
Proof.
  induction l as [|x l IH]; intros H.
  - exists []. split; [reflexivity|]. intros x part [].
  - destruct (H x (or_introl eq_refl)) as [px Hpx].
    destruct IH as (rest & Hrest & Hincl).
    { intros y Hy. apply H. now right. }
    exists (px ++ rest). split.
    + simpl. now rewrite Hpx, Hrest.
    + intros y part [<-|Hy] Hg.
      * rewrite Hpx in Hg. injection Hg as <-. now apply incl_appl.
      * apply incl_appr. exact (Hincl y part Hy Hg).
Qed.

(** X20. On a well-founded tree [renderTree] returns, given fuel above the
    rank of the parent it starts from, and every child of that parent has
    a row at the depth asked for: the items of the top level are always
    shown. *)
Theorem renderTree_completes (files : list File) (st : State)
    (rank : jsstring -> nat) :
  ranked files rank ->
  forall fuel parentId depth,
    rank parentId < fuel ->
    exists rows,
      renderTree localeCompare fuel files st parentId depth = Some rows /\
      forall f, In f files -> File.parentId f = parentId ->
        exists r, In r rows /\ rowFile r = f /\ rowDepth r = depth.
Proof.
  intros Hr. induction fuel as [|fuel IH]; intros parentId depth Hlt; [lia|].
  cbn [renderTree].
  assert (Hsome : forall x,
    In x (renderTree_items localeCompare files parentId) ->
    exists part,
      renderItem (renderTree localeCompare fuel files st) st depth x
      = Some part /\
      exists r, In r part /\ rowFile r = x /\ rowDepth r = depth).
  { intros x Hx. apply renderTree_items_in in Hx as [Hin Hp].
    unfold renderItem.
    destruct (truthy (File.isDirectory x)) eqn:Hd; cbn [andb].
    - destruct (truthy (Dict.get (File.id x) (expandedFolders st))).
      + destruct (IH (File.id x) (S depth)) as (sub & -> & _).
        { pose proof (Hr x Hin Hd). rewrite Hp in *. lia. }
        eexists. split; [reflexivity|].
        eexists. split; [now left|]. now split.
      + eexists. split; [reflexivity|].
        eexists. split; [now left|]. now split.
    - eexists. split; [reflexivity|].
      eexists. split; [now left|]. now split. }
  destruct (collect_total _ _
              (renderItem (renderTree localeCompare fuel files st) st depth)
              (renderTree_items localeCompare files parentId))
    as (rows & Hrows & Hincl).
  { intros x Hx. destruct (Hsome x Hx) as (part & Hpart & _). eauto. }
  exists rows. split; [exact Hrows|].
  intros f Hf Hp.
  assert (Hx : In f (renderTree_items localeCompare files parentId))
    by (apply renderTree_items_in; now split).
  destruct (Hsome f Hx) as (part & Hpart & r & Hin & Hrf & Hrd).
  exists r. split; [exact (Hincl f part Hx Hpart r Hin)|]. now split.
Qed.

(** X21. In a duplicated project whose new ids are none of the parent ids
    of the original, the tree shows the items of the top level only: a
    file that lay inside a folder has no row, whichever folders are
    expanded. *)
Theorem duplicate_tree_top_level_only (h : Host) (w w' : World)
    (id : jsstring) (projects : list Project) (original newProject : Project)
    (st : State) (fuel : nat) (rows : list Row) :
  getProjects h w = Normal projects ->
  find (fun p => JS.eqb (Project.id p) id) projects = Some original ->
  duplicateProject h id w = (Normal (Some newProject), w') ->
  (forall g, In g (Project.files newProject) ->
     ~ In (File.id g) (map File.parentId (Project.files original))) ->
  renderTree localeCompare fuel (Project.files newProject) st #"root" 0
    = Some rows ->
  forall r, In r rows ->
    File.parentId (rowFile r) = #"root" /\ rowDepth r = 0.
Proof.
  intros Hget Hfind Hdup Hfresh Hrows r Hr.
  pose proof (duplicateProject_files h w w' id projects original newProject
                Hget Hfind Hdup) as Hmap.
  destruct (renderTree_row_origin localeCompare _ st fuel #"root" 0 rows Hrows r Hr)
    as [Hin [Htop|(g & Hg & _ & _ & Hp & _)]]; [exact Htop|].
  exfalso. apply (Hfresh g Hg).
  rewrite <- Hmap, <- Hp. now apply in_map.
Qed.

End TreeMore.

Section TreeSamples.
Import FileExplorer Storage.

Lemma topRank_assetSite : ranked (Project.files assetSite) topRank.
Proof.
  intros f Hf Hd. vm_compute in Hf.
  repeat destruct Hf as [<-|Hf]; try contradiction; try discriminate Hd.
  vm_compute. lia.
Qed.

(** X18 and X20 at [assetSite] with [assets] expanded: the image inside
    [assets] has a row at depth 1, below the expanded folder. *)
Lemma renderTree_rows_witness :
  exists rows,
    renderTree ordinalCompare 2 (Project.files assetSite) assetsExpanded
      #"root" 0 = Some rows /\
    map rowFile rows = [assetsDir; logoPng; aTxt; bTxt] /\
    forall r, In r rows ->
      In (rowFile r) (Project.files assetSite) /\
      ((File.parentId (rowFile r) = #"root" /\ rowDepth r = 0) \/
       (exists g, In g (Project.files assetSite) /\
          truthy (File.isDirectory g) = true /\
          truthy (Dict.get (File.id g) (expandedFolders assetsExpanded))
            = true /\
          File.parentId (rowFile r) = File.id g /\ 0 < rowDepth r)).
Proof.
  eexists. split; [vm_compute; reflexivity|]. split; [reflexivity|].
  intros r Hr.
  eapply (renderTree_rows ordinalCompare (Project.files assetSite)
            assetsExpanded 2 #"root" 0); [|exact Hr].
  vm_compute. reflexivity.
Defined.

Lemma renderTree_completes_witness :
  exists rows,
    renderTree ordinalCompare 2 (Project.files assetSite) assetsExpanded
      #"root" 0 = Some rows /\
    exists r, In r rows /\ rowFile r = aTxt /\ rowDepth r = 0.
Proof.
  destruct (renderTree_completes ordinalCompare (Project.files assetSite)
              assetsExpanded topRank topRank_assetSite 2 #"root" 0)
    as (rows & Hrows & Hall); [vm_compute; lia|].
  exists rows. split; [exact Hrows|].
  apply Hall; [|reflexivity]. vm_compute. tauto.
Defined.

(** X19 at [demoSite] as the explorer starts: the folder [pages] and the
    two files of the top level, and not the page inside [pages]. *)
Lemma renderTree_collapsed_witness :
  exists rows,
    renderTree ordinalCompare 1 (Project.files demoSite) typingFolder
      #"root" 0 = Some rows /\
    map rowFile rows =
      renderTree_items ordinalCompare (Project.files demoSite) #"root" /\
    List.length rows = 3.
Proof.
  destruct (renderTree_collapsed ordinalCompare (Project.files demoSite)
              typingFolder 0 #"root" 0)
    as (rows & Hrows & Hmap & _).
  - intros f Hf Hd. vm_compute in Hf.
    repeat destruct Hf as [<-|Hf]; try contradiction; try discriminate Hd.
    reflexivity.
  - exists rows. split; [exact Hrows|]. split; [exact Hmap|].
    rewrite <- (length_map rowFile), Hmap. reflexivity.
Defined.

Lemma duplicate_tree_top_level_only_witness :
  exists newProject rows,
    fst (duplicateProject demoHost #"1700000000000" demoWorld) =
      Normal (Some newProject) /\
    renderTree ordinalCompare 3 (Project.files newProject) assetsExpanded
      #"root" 0 = Some rows /\
    forall r, In r rows ->
      File.parentId (rowFile r) = #"root" /\ rowDepth r = 0.
Proof.
  destruct (duplicateProject demoHost #"1700000000000" demoWorld)
    as [c w'] eqn:E.
  assert (Hc : exists np, c = Normal (Some np) /\
            (forall g, In g (Project.files np) ->
               ~ In (File.id g)
                   (map File.parentId (Project.files demoSite))) /\
            exists rows,
              renderTree ordinalCompare 3 (Project.files np) assetsExpanded
                #"root" 0 = Some rows).
  { vm_compute in E. injection E as <- _.
    eexists. split; [reflexivity|]. split.
    - intros g Hg. repeat destruct Hg as [<-|Hg]; try contradiction; absent.
    - eexists. vm_compute. reflexivity. }
  destruct Hc as (np & -> & Hfresh & rows & Hrows).
  exists np, rows. split; [reflexivity|]. split; [exact Hrows|].
  apply (duplicate_tree_top_level_only ordinalCompare demoHost demoWorld w'
           #"1700000000000" [demoSite] demoSite np assetsExpanded 3 rows);
    auto.
Defined.

End TreeSamples.

(* ================================================================== *)
(** * The code editor: the streamed answer *)
(* ================================================================== *)

Section Lines.

Lemma last_app_nonempty (A : Type) (l1 l2 : list A) (d : A) :
  l2 <> [] -> last (l1 ++ l2) d = last l2 d.
Proof.
  intros H. induction l1 as [|x l1 IH]; [reflexivity|].
  simpl. rewrite IH. destruct (l1 ++ l2) eqn:E; [|reflexivity].
  apply app_eq_nil in E as [_ ->]. congruence.
Qed.

(** Splitting a text in two pieces: the last line of the first piece is
    continued by the second piece. *)
Lemma split_app_lines (sep : N) (x y : jsstring) :
  JS.split sep (x ++ y) =
  removelast (JS.split sep x) ++ JS.split sep (last (JS.split sep x) [] ++ y).
Proof.
  induction x as [|c x IH]; [reflexivity|].
  pose proof (split_nonempty sep x) as Hne.
  cbn [app JS.split]. destruct (c =? sep)%N eqn:Ec.
  - rewrite IH. destruct (JS.split sep x) as [|seg segs]; [congruence|].
    reflexivity.
  - rewrite IH. destruct (JS.split sep x) as [|seg segs]; [congruence|].
    destruct segs as [|seg' segs]; [|reflexivity].
    cbn [removelast last app JS.split]. now rewrite Ec.
Qed.

Lemma split_lines_app (sep : N) (x y : jsstring) :
  removelast (JS.split sep (x ++ y)) =
  removelast (JS.split sep x)
  ++ removelast (JS.split sep (last (JS.split sep x) [] ++ y)) /\
  last (JS.split sep (x ++ y)) [] =
  last (JS.split sep (last (JS.split sep x) [] ++ y)) [].
Proof.
  rewrite split_app_lines. split.
  - apply removelast_app, split_nonempty.
  - apply last_app_nonempty, split_nonempty.
Qed.

Lemma last_line_whole (sep : N) (s : jsstring) :
  ~ In sep (last (JS.split sep s) []).
Proof.
  induction s as [|c s IH]; [intros []|].
  pose proof (split_nonempty sep s) as Hne.
  cbn [JS.split]. destruct (N.eqb_spec c sep) as [->|Hc].
  - destruct (JS.split sep s) as [|seg segs]; [congruence|]. exact IH.
  - destruct (JS.split sep s) as [|seg segs]; [congruence|].
    destruct segs as [|seg' segs]; [|exact IH].
    cbn [last] in *. intros [H|H]; [congruence | now apply IH].
Qed.

End Lines.

Section Stream.
Import CodeEditor.

Variable deltaOf : jsstring -> jsstring.

(** The state of the reading loop after some chunks, in terms of the text
    received so far. *)
Lemma readChunks_state (chunks : list jsstring) :
  forall fullContent buffer,
    ~ In 10%N buffer ->
    fold_left (readChunk deltaOf) chunks (fullContent, buffer) =
    (fold_left (processLine deltaOf)
       (removelast (JS.split 10 (buffer ++ List.concat chunks))) fullContent,
     last (JS.split 10 (buffer ++ List.concat chunks)) []).
Proof.
  induction chunks as [|c chunks IH]; intros fullContent buffer Hb.
  - cbn [fold_left List.concat]. rewrite app_nil_r.
    now rewrite (split_no_separator 10 buffer Hb).
  - cbn [fold_left List.concat]. unfold readChunk at 2.
    rewrite IH by apply last_line_whole.
    rewrite app_assoc.
    destruct (split_lines_app 10 (buffer ++ c) (List.concat chunks)) as [-> ->].
    now rewrite fold_left_app.
Qed.

(** The answer is read off the lines of the whole text that end in a line
    feed. *)
Lemma readStream_lines (chunks : list jsstring) :
  readStream deltaOf chunks =
  fold_left (processLine deltaOf)
    (removelast (JS.split 10 (List.concat chunks))) [].
Proof.
  unfold readStream. now rewrite readChunks_state by intros [].
Qed.

(** X22. The answer read from the stream does not depend on how the text
    arrives in chunks: it is what the loop reads from the whole text in
    one chunk, namely the deltas of the lines that end in a line feed,
    taken in order. *)
Theorem readStream_chunking (chunks : list jsstring) :
  readStream deltaOf chunks = readStream deltaOf [List.concat chunks] /\
  readStream deltaOf chunks =
  fold_left (processLine deltaOf)
    (removelast (JS.split 10 (List.concat chunks))) [].
Proof.
  split; [|apply readStream_lines].
  rewrite (readStream_lines chunks), (readStream_lines [List.concat chunks]).
  cbn [List.concat]. now rewrite app_nil_r.
Qed.

(** X23. What follows the last line feed of the stream is never read: a
    final chunk without a line feed adds nothing to the answer, so a last
    [data: ] line that is not ended by a line feed is lost. *)
Theorem readStream_unterminated (chunks : list jsstring) (tail : jsstring) :
  ~ In 10%N tail ->
  readStream deltaOf (chunks ++ [tail]) = readStream deltaOf chunks.
Proof.
  intros Ht.
  rewrite (readStream_lines (chunks ++ [tail])), (readStream_lines chunks).
  rewrite concat_app. cbn [List.concat]. rewrite app_nil_r.
  destruct (split_lines_app 10 (List.concat chunks) tail) as [-> _].
  rewrite (split_no_separator 10
             (last (JS.split 10 (List.concat chunks)) [] ++ tail)).
  - cbn [removelast]. now rewrite app_nil_r.
  - intros Hin. apply in_app_iff in Hin as [Hin|Hin]; [|now apply Ht].
    now apply (last_line_whole 10 (List.concat chunks)).
Qed.

End Stream.

Section StreamSamples.
Import CodeEditor.

Lemma readStream_chunking_witness :
  readStream echoDelta [ #"data: a" ++ nl ++ #"da"; #"ta: b" ++ nl ] = #"ab".
Proof.
  refine (eq_trans
            (proj1 (readStream_chunking echoDelta
                      [ #"data: a" ++ nl ++ #"da"; #"ta: b" ++ nl ])) _).
  reflexivity.
Defined.

Lemma readStream_unterminated_witness :
  readStream echoDelta
    ([ #"data: a" ++ nl ++ #"da"; #"ta: b" ++ nl ] ++ [ #"data: c" ]) = #"ab".
Proof.
  refine (eq_trans
            (readStream_unterminated echoDelta
               [ #"data: a" ++ nl ++ #"da"; #"ta: b" ++ nl ] #"data: c" _) _).
  - absent.
  - reflexivity.
Defined.

End StreamSamples.

Section Fences.
Import CodeEditor.

Lemma dropLetters_tag (lang rest : jsstring) :
  Forall (fun c => isLetter c = true) lang ->
  dropLetters (lang ++ 10%N :: rest) = 10%N :: rest.
Proof.
  induction 1 as [|c lang Hc Hl IH]; [reflexivity|].
  simpl. now rewrite Hc.
Qed.

Lemma stripOpeningFence_fenced (lang rest : jsstring) :
  Forall (fun c => isLetter c = true) lang ->
  stripOpeningFence (#"```" ++ lang ++ nl ++ rest) = rest.
Proof.
  intros Hl. unfold stripOpeningFence.
  rewrite (proj2 (matchAt_exact #"```" (#"```" ++ lang ++ nl ++ rest)
                    #"```" (lang ++ nl ++ rest))) by auto.
  change (lang ++ nl ++ rest) with (lang ++ 10%N :: rest).
  now rewrite dropLetters_tag.
Qed.

Lemma endsWith_app (s suffix : jsstring) :
  endsWith (s ++ suffix) suffix = true.
Proof.
  unfold endsWith, JS.startsWith. rewrite rev_app_distr.
  now rewrite (proj2 (matchAt_exact (rev suffix) (rev suffix ++ rev s)
                        (rev suffix) (rev s))) by auto.
Qed.

Lemma stripClosingFence_fenced (code : jsstring) :
  stripClosingFence (code ++ nl ++ #"```") = code.
Proof.
  unfold stripClosingFence. rewrite endsWith_app.
  rewrite length_app.
  replace (List.length code + List.length (nl ++ #"```") - 4)
    with (List.length code + 0) by (simpl; lia).
  rewrite firstn_app_2. simpl. apply app_nil_r.
Qed.

(** X24. An answer wrapped in a code fence is unwrapped: for every code
    and every language tag made of letters (or none), three backticks,
    the tag, a line feed, the code, a line feed and three backticks give
    the code, trimmed. An answer that neither begins with three backticks
    nor ends with a line feed and three backticks is only trimmed. *)
Theorem newCode_unwraps (lang code : jsstring) :
  (Forall (fun c => isLetter c = true) lang ->
   newCode (#"```" ++ lang ++ nl ++ code ++ nl ++ #"```") = JS.trim code) /\
  (JS.startsWith code #"```" = false ->
   endsWith code (nl ++ #"```") = false ->
   newCode code = JS.trim code).
Proof.
  split.
  - intros Hl. unfold newCode.
    now rewrite stripOpeningFence_fenced, stripClosingFence_fenced.
  - intros Hs He. unfold newCode, stripOpeningFence, stripClosingFence.
    unfold JS.startsWith in Hs.
    destruct (JS.matchAt N.eqb #"```" code); [discriminate|].
    now rewrite He.
Qed.

Lemma newCode_unwraps_witness :
  newCode (#"```" ++ #"html" ++ nl ++ #"<p>hi</p> " ++ nl ++ #"```") =
  #"<p>hi</p>".
Proof.
  refine (eq_trans (proj1 (newCode_unwraps #"html" #"<p>hi</p> ") _) _).
  - repeat constructor.
  - reflexivity.
Defined.

End Fences.

(* ================================================================== *)
(** * Export: termination, and injection of plain content *)
(* ================================================================== *)

Section Fuel.
Import ApkBuilder.

Lemma fold_items_mono
    (r1 r2 : jsstring -> jsstring -> JSZip.files -> option JSZip.files)
    (folder : jsstring) (items : list File) :
  (forall p f z z', r1 p f z = Some z' -> r2 p f z = Some z') ->
  forall z z',
    fold_left (processItem r1 folder) items (Some z) = Some z' ->
    fold_left (processItem r2 folder) items (Some z) = Some z'.
Proof.
  intros Hr. induction items as [|item items IH]; intros z z' H;
    [exact H|].
  cbn [fold_left] in *.
  destruct (processItem r1 folder (Some z) item) as [z1|] eqn:E.
  - assert (E2 : processItem r2 folder (Some z) item = Some z1).
    { unfold processItem in *.
      destruct (truthy (File.isDirectory item)); [|exact E].
      destruct (JSZip.folder folder (File.name item) z) as [[nf z0]|];
        [now apply Hr | exact E]. }
    rewrite E2. now apply IH.
  - exfalso. clear - H.
    induction items as [|i items IHi]; [discriminate|]. now apply IHi.
Qed.

Lemma processFolder_more_fuel (files : list File) :
  forall fuel parentId folder z z',
    processFolder fuel files parentId folder z = Some z' ->
    processFolder (S fuel) files parentId folder z = Some z'.
Proof.
  induction fuel as [|fuel IH]; intros parentId folder z z' H;
    [discriminate|].
  change (fold_left (processItem (processFolder (S fuel) files) folder)
            (childrenOf files parentId) (Some z) = Some z').
  change (fold_left (processItem (processFolder fuel files) folder)
            (childrenOf files parentId) (Some z) = Some z') in H.
  revert H. apply fold_items_mono. intros p f z0 z1. apply IH.
Qed.

(** X25. The standard export of a well-founded tree of folders ends, and
    with any more fuel it ends in the same way. The traversal registers
    the same entries; when the decoder refuses one of the registered
    Base64 texts the export fails with the generation error and nothing
    is produced; otherwise it produces the archive named after the
    project, with the bytes of every registered entry. *)
Theorem standard_export_ends (codec : JSZip.Codec) (p : Project)
    (rank : jsstring -> nat) :
  ranked (Project.files p) rank ->
  exists z',
    (forall extra,
       processFolder (S (rank #"root") + extra) (Project.files p) #"root"
         (safeProjectName (Project.name p) ++ #"/")
         [(safeProjectName (Project.name p) ++ #"/", JSZip.Dir)] = Some z') /\
    (((exists k s, In (k, JSZip.Entry (JSZip.Base64 s)) z' /\
                   JSZip.base64_decode codec s = None) /\
      forall extra,
        exportProject codec (S (rank #"root") + extra) (Some p) false =
        Some (Throw ArchiveGenerationFailed))
     \/
     ((forall k s, In (k, JSZip.Entry (JSZip.Base64 s)) z' ->
                   JSZip.base64_decode codec s <> None) /\
      exists d,
        (forall extra,
           exportProject codec (S (rank #"root") + extra) (Some p) false =
           Some (Normal d)) /\
        download d = safeProjectName (Project.name p) ++ #".zip" /\
        zip d = z' /\
        forall k dat, Dict.get k z' = Some (JSZip.Entry dat) ->
          exists b, JSZip.bytes codec dat = Some b /\
                    Dict.get k (blob d) = Some (JSZip.MemberFile b))).
Proof.
  intros Hr.
  destruct (processFolder_completes _ rank Hr (S (rank #"root")) #"root"
              (safeProjectName (Project.name p) ++ #"/")
              [(safeProjectName (Project.name p) ++ #"/", JSZip.Dir)])
    as [z' Hz']; [lia|].
  assert (H : forall extra,
            processFolder (S (rank #"root") + extra) (Project.files p)
              #"root" (safeProjectName (Project.name p) ++ #"/")
              [(safeProjectName (Project.name p) ++ #"/", JSZip.Dir)]
            = Some z').
  { induction extra as [|extra IH].
    - now rewrite Nat.add_0_r.
    - rewrite Nat.add_succ_r. now apply processFolder_more_fuel. }
  exists z'. split; [exact H|].
  destruct (JSZip.generateAsync codec z') as [members|] eqn:Eg.
  - right. split.
    + intros k s Hin Hs.
      enough (Some members = None) by discriminate.
      rewrite <- Eg. apply generateAsync_rejected. eauto.
    + exists {| download := safeProjectName (Project.name p) ++ #".zip";
                zip := z'; blob := members |}.
      split; [|split; [reflexivity|split; [reflexivity|]]].
      * intros extra. now rewrite exportProject_standard, H, Eg.
      * intros k dat Hget. cbn [blob].
        exact (generateAsync_entry _ _ _ Eg _ _ Hget).
  - left. split; [now apply generateAsync_rejected|].
    intros extra. now rewrite exportProject_standard, H, Eg.
Qed.

(** X25 at [assetSite]: whatever the fuel above the rank, the archive is
    produced, and the nested image holds the bytes of [ABC]. *)
Lemma standard_export_ends_witness :
  exists d,
    (forall extra,
       exportProject sampleCodec (S (topRank #"root") + extra)
         (Some assetSite) false = Some (Normal d)) /\
    Dict.get #"Assets/assets/logo.png" (blob d) =
      Some (JSZip.MemberFile #"ABC").
Proof.
  destruct (standard_export_ends sampleCodec assetSite topRank)
    as (z' & Hz' & [[(k & s & Hin & Hs) _]|[_ (d & Hd & _ & _ & Hb)]]).
  - intros f Hf Hd. vm_compute in Hf.
    repeat destruct Hf as [<-|Hf]; try contradiction; try discriminate Hd.
    vm_compute. lia.
  - exfalso. specialize (Hz' 0). vm_compute in Hz'. injection Hz' as <-.
    repeat destruct Hin as [Hin|Hin]; try contradiction;
      try discriminate Hin.
    injection Hin as _ <-. vm_compute in Hs. discriminate Hs.
  - exists d. split; [exact Hd|].
    specialize (Hz' 0). vm_compute in Hz'. injection Hz' as <-.
    destruct (Hb #"Assets/assets/logo.png" (JSZip.Base64 #"QUJD") eq_refl)
      as (b & Hbytes & Hget).
    vm_compute in Hbytes. injection Hbytes as <-. exact Hget.
Defined.

End Fuel.

Section PlainInjection.
Import ApkBuilder.

Lemma matchAt_shape (same : N -> N -> bool) (pat s m rest : jsstring) :
  JS.matchAt same pat s = Some (m, rest) ->
  s = m ++ rest /\ Forall2 (fun p c => same p c = true) pat m.
Proof.
  revert s m rest. induction pat as [|p pat IH]; intros s m rest; simpl.
  - intros [= <- <-]. split; [reflexivity | constructor].
  - destruct s as [|c s]; [discriminate|].
    destruct (same p c) eqn:E; [|discriminate].
    destruct (JS.matchAt same pat s) as [[m' rest']|] eqn:Em; [|discriminate].
    intros [= <- <-]. destruct (IH _ _ _ Em) as [-> HF].
    split; [reflexivity | now constructor].
Qed.

Lemma search_shape (same : N -> N -> bool) (pat s before m after : jsstring) :
  JS.search same pat s = Some (before, m, after) ->
  s = before ++ m ++ after /\ Forall2 (fun p c => same p c = true) pat m.
Proof.
  revert before. induction s as [|c s IH]; intros before; simpl.
  - destruct (JS.matchAt same pat []) as [[m' r]|] eqn:E; [|discriminate].
    intros [= <- <- <-]. exact (matchAt_shape _ _ _ _ _ E).
  - destruct (JS.matchAt same pat (c :: s)) as [[m' r]|] eqn:E.
    + intros [= <- <- <-]. exact (matchAt_shape _ _ _ _ _ E).
    + destruct (JS.search same pat s) as [[[pre m'] r]|] eqn:Es;
        [|discriminate].
      intros [= <- <- <-]. destruct (IH pre eq_refl) as [-> HF].
      split; [reflexivity | exact HF].
Qed.

(** X26. How a style sheet without a dollar sign is injected. With a
    [</head>] in the document the style block goes right before the first
    one. With no [</head>] but a [<body], it goes where [<body] first
    occurs in any letter case, and that occurrence is rewritten in lower
    case. With neither it goes in front. In each case the text before and
    after stays as it was. *)
Theorem injectCss_plain (doc cssContent : jsstring) :
  ~ In 36%N cssContent ->
  (forall before after,
     doc = before ++ #"</head>" ++ after ->
     firstAt #"</head>" before doc ->
     injectCss doc cssContent =
     before ++ (cssBlock cssContent ++ nl ++ #"</head>") ++ after) /\
  ((forall a b, doc <> a ++ #"</head>" ++ b) ->
   forall before m after,
     JS.includes doc #"<body" = true ->
     JS.search JS.sameCI #"<body" doc = Some (before, m, after) ->
     doc = before ++ m ++ after /\
     Forall2 (fun p c => JS.sameCI p c = true) #"<body" m /\
     injectCss doc cssContent =
     before ++ (cssBlock cssContent ++ nl ++ #"<body") ++ after) /\
  ((forall a b, doc <> a ++ #"</head>" ++ b) ->
   (forall a b, doc <> a ++ #"<body" ++ b) ->
   injectCss doc cssContent = cssBlock cssContent ++ nl ++ doc).
Proof.
  intros Hplain. split; [|split].
  - intros before after. now apply injectCss_before_head.
  - intros Hh before m after Hb Hs.
    destruct (search_shape _ _ _ _ _ _ Hs) as [Hdoc HF].
    split; [exact Hdoc|]. split; [exact HF|].
    unfold injectCss.
    rewrite (proj2 (includes_false doc #"</head>") Hh), Hb.
    unfold JS.replaceFirst. rewrite Hs.
    rewrite getSubstitution_plain; [reflexivity|].
    apply cssBlock_plain; [exact Hplain | absent].
  - apply injectCss_prepended.
Qed.

Lemma injectCss_plain_witness :
  injectCss #"<BODY class='a'><p><body></p>" #"p{}" =
  [] ++ (cssBlock #"p{}" ++ nl ++ #"<body") ++ #" class='a'><p><body></p>".
Proof.
  assert (Hplain : ~ In 36%N #"p{}") by absent.
  destruct (injectCss_plain #"<BODY class='a'><p><body></p>" #"p{}" Hplain)
    as (_ & Hbody & _).
  refine (proj2 (proj2 (Hbody _ [] #"<BODY" #" class='a'><p><body></p>"
                          eq_refl eq_refl))).
  intros a b H.
  assert (Hi : JS.includes #"<BODY class='a'><p><body></p>" #"</head>" = true)
    by (apply includes_true; now exists a, b).
  discriminate Hi.
Defined.

(** X27. How the script is injected. The script chosen is [script.js], or
    [main.js] when no file is named [script.js]. When its content has no
    dollar sign, the script block goes right before the first [</body>] of
    the document, and the text before and after stays as it was; without
    a [</body>] the block is put at the end, whatever the content. *)
Theorem injectJs_plain (files : list File) (doc : jsstring) (jsFile : File) :
  findJsFile files = Some jsFile ->
  (File.name jsFile = #"script.js" \/
   (File.name jsFile = #"main.js" /\
    forall g, In g files -> File.name g <> #"script.js")) /\
  (~ In 36%N (File.content jsFile) ->
   forall before after,
     doc = before ++ #"</body>" ++ after ->
     firstAt #"</body>" before doc ->
     injectJs doc jsFile =
     before ++ (jsBlock jsFile ++ nl ++ #"</body>") ++ after) /\
  ((forall a b, doc <> a ++ #"</body>" ++ b) ->
   injectJs doc jsFile = doc ++ nl ++ jsBlock jsFile).
Proof.
  intros Hfind. pose proof (findJsFile_name files jsFile Hfind) as Hname.
  split; [exact Hname|]. split.
  - intros Hplain before after Hdoc Hfirst.
    apply injectJs_before_body; auto.
    destruct Hname as [->|[-> _]]; absent.
  - apply injectJs_appended.
Qed.

Lemma injectJs_plain_witness :
  injectJs #"<body><p></p></body>"
    (demoFile #"13" #"script.js" #"console.log(1)" javascript #"root" None) =
  #"<body><p></p>"
  ++ (jsBlock (demoFile #"13" #"script.js" #"console.log(1)" javascript
                 #"root" None) ++ nl ++ #"</body>") ++ [].
Proof.
  destruct (injectJs_plain (Project.files demoSite) #"<body><p></p></body>"
              (demoFile #"13" #"script.js" #"console.log(1)" javascript
                 #"root" None) eq_refl) as (_ & Hbody & _).
  apply Hbody.
  - absent.
  - reflexivity.
  - intros a b H.
    destruct (Nat.le_gt_cases (List.length #"<body><p></p>") (List.length a))
      as [Hle|Hgt]; [exact Hle|].
    exfalso.
    assert (Hs : JS.search N.eqb #"</body>" #"<body><p></p></body>" =
                 Some (#"<body><p></p>", #"</body>", []))
      by reflexivity.
    apply search_found in Hs as (_ & _ & Hfirst).
    specialize (Hfirst a b H). lia.
Defined.

End PlainInjection.
